(** * Deployment orchestration scripts: [deploy_app.py] and [minikube_control.py]

    A shallow embedding of the two control scripts of
    [react-sre-project/scripts] and the properties of their retry, polling
    and stage-sequencing logic.

    The scripts are sequential programs whose only interesting behaviour is
    their interaction with the outside world: they spawn processes, sleep,
    read the clock, test paths and print.  They are embedded in a small
    state-and-exception monad over a [world] that carries the clock and the
    trace of interactions so far; what the outside world answers is fixed by
    an [env], over which every statement quantifies.

    What the model takes for granted:
    - the clock counts ticks, [hz] of them to the second, and never goes
      back; a sleep of [n] seconds takes [n * hz] ticks at least, every
      other interaction any number of ticks;
    - a process ends in an exit status with output that is text, in output
      that cannot be decoded ([UnicodeDecodeError], as [text=True] has it),
      in [TimeoutExpired], or cannot be started ([OSError]); nothing else is
      raised by [subprocess.run];
    - Ctrl-C arrives only where the script handles it, in the loop of
      [setup_port_forwarding];
    - [json.loads] and [strftime] are the world's: any function will do;
    - characters are code points below 256;
    - a [while] loop runs on fuel, and running out of it is the result
      [Diverge]: that a loop ends is then a statement about enough fuel. *)

From Stdlib Require Import ZArith List String Ascii Bool Lia DecimalString.
Import ListNotations.

#[local] Open Scope string_scope.
#[local] Open Scope Z_scope.

(** ** Python strings *)

(** Characters are code points below 256.  [str.isspace] on those:
    TAB..CR, FS..US, SPACE, NEL and NBSP. *)
Definition py_isspace (c : ascii) : bool :=
  let n := N_of_ascii c in
  ((9 <=? n) && (n <=? 13) || (28 <=? n) && (n <=? 32)
   || (n =? 133) || (n =? 160))%N.

Fixpoint lstrip (s : string) : string :=
  match s with
  | EmptyString => EmptyString
  | String c s' => if py_isspace c then lstrip s' else s
  end.

Fixpoint string_rev_onto (s acc : string) : string :=
  match s with
  | EmptyString => acc
  | String c s' => string_rev_onto s' (String c acc)
  end.

Definition string_rev (s : string) : string := string_rev_onto s EmptyString.

Definition rstrip (s : string) : string := string_rev (lstrip (string_rev s)).

(** [s.strip()] *)
Definition strip (s : string) : string := rstrip (lstrip s).

(** [needle in hay] *)
Fixpoint contains (needle hay : string) : bool :=
  String.prefix needle hay ||
  match hay with
  | EmptyString => false
  | String _ hay' => contains needle hay'
  end.

(** [' '.join(l)] *)
Definition join (sep : string) (l : list string) : string := String.concat sep l.

(** [str(n)] for an integer, as an f-string renders it. *)
Definition str_of_Z (n : Z) : string := NilZero.string_of_int (Z.to_int n).

(** [os.path.join(a, b)] for a relative [b] and an [a] without trailing
    separator, the only way the scripts use it. *)
Definition path_join (a b : string) : string := a ++ "/" ++ b.

(** Truthiness of an [Optional[str]]: [None] and [""] are false. *)
Definition truthy (o : option string) : bool :=
  match o with
  | Some s => negb (s =? "")%string
  | None => false
  end.

(** ** The outside world *)

(** What [subprocess.run] can end in: the process exits and its output
    decodes to text; the timeout expires; the process cannot be started;
    the process ends, whatever its exit status, but what it wrote is not
    text in the encoding [text=True] decodes with. *)
Inductive completion : Type :=
| Exited (returncode : Z) (stdout stderr : string)
| TimedOut
| SpawnFailed
| DecodeFailed.

(** A failed attempt in the sense of the retry logic: the script got to see
    a non-zero exit status, or the timeout. *)
Definition attempt_failed (c : completion) : Prop :=
  match c with
  | Exited rc _ _ => rc <> 0
  | TimedOut => True
  | SpawnFailed | DecodeFailed => False
  end.

Definition attempt_failedb (c : completion) : bool :=
  match c with
  | Exited rc _ _ => negb (rc =? 0)
  | TimedOut => true
  | SpawnFailed | DecodeFailed => false
  end.

(** A command: an argument vector run directly ([shell=False]) or a line
    handed to the shell ([shell=True]). *)
Inductive command : Type :=
| Argv (args : list string)
| ShellLine (line : string).

(** Values of [json.loads]. An object is the item list of the resulting
    dict (keys distinct). *)
#[local] Unset Elimination Schemes.
Inductive json : Type :=
| JNull
| JBool (b : bool)
| JNumber (literal : string)
| JString (s : string)
| JArray (items : list json)
| JObject (items : list (string * json)).
#[local] Set Elimination Schemes.

(** The functions of [deploy_app.py] whose calls and results are recorded:
    the cluster check and the stages of the pipeline. *)
Inductive func : Type :=
| Fn_check_minikube_status
| Fn_create_namespaces
| Fn_build_react_app
| Fn_build_docker_image
| Fn_deploy_monitoring
| Fn_deploy_application
| Fn_setup_port_forwarding.

Inductive event : Type :=
| EvRun (cmd : command) (cwd input : option string) (timeout : Z)
    (**r [subprocess.run], one attempt *)
| EvSleep (seconds : Z)                       (**r [time.sleep] *)
| EvTime (t : Z)                              (**r [time.time()] read [t] ticks *)
| EvPrint (line : string)                     (**r [print] *)
| EvPopen (args : list string)                (**r [subprocess.Popen] *)
| EvTerminate (args : list string)            (**r [Popen.terminate] *)
| EvSetenv (key value : string)               (**r [os.environ[k] = v] *)
| EvCall (f : func)                           (**r a recorded function is entered *)
| EvReturn (f : func) (result : bool).        (**r ... and returns [result] *)

(** The answers of the outside world.  Processes are numbered in the order
    the script runs them; every other answer is indexed by the number of
    interactions made so far. *)
Record env : Type := {
  hz : positive;                       (**r clock ticks per second *)
  proc : nat -> completion;            (**r how the n-th [subprocess.run] ends *)
  lag : nat -> N;                      (**r ticks the n-th interaction takes, beyond a sleep's duration *)
  path_exists : nat -> string -> bool; (**r [os.path.exists] *)
  popen_fails : nat -> bool;           (**r [Popen] cannot spawn *)
  interrupted : nat -> bool;           (**r Ctrl-C arrives during the n-th interaction *)
  json_loads : string -> option json;  (**r [json.loads]; [None] is [JSONDecodeError] *)
  strftime : Z -> string               (**r [datetime.now().strftime(...)] at a clock value *)
}.

Record world : Type := {
  now : Z;               (**r the clock, in ticks *)
  spawns : nat;          (**r processes run so far *)
  steps : nat;           (**r interactions so far *)
  trace : list event     (**r what happened, newest first *)
}.

Definition boot (t0 : Z) : world :=
  {| now := t0; spawns := 0; steps := 0; trace := [] |}.

(** ** The monad of scripts *)

Inductive exn : Type :=
| TimeoutExpired
| OSError
| UnicodeDecodeError
| AttributeError
| KeyboardInterrupt.

Inductive result (A : Type) : Type :=
| Ret (a : A)
| Raise (e : exn)
| Diverge.   (**r a loop ran out of fuel *)

Arguments Ret {A} a.
Arguments Raise {A} e.
Arguments Diverge {A}.

Definition M (A : Type) : Type := world -> result A * world.

Definition ret {A} (a : A) : M A := fun w => (Ret a, w).

Definition raise {A} (e : exn) : M A := fun w => (Raise e, w).

Definition diverge {A} : M A := fun w => (Diverge, w).

Definition bind {A B} (m : M A) (k : A -> M B) : M B :=
  fun w =>
    match m w with
    | (Ret a, w') => k a w'
    | (Raise e, w') => (Raise e, w')
    | (Diverge, w') => (Diverge, w')
    end.

Declare Scope script_scope.
Delimit Scope script_scope with script.
Notation "x <- m ;; k" := (bind m (fun x => k))
  (at level 61, m at next level, right associativity) : script_scope.
Notation "m ;; k" := (bind m (fun _ => k))
  (at level 61, right associativity) : script_scope.
#[local] Open Scope script_scope.

(** [try: body  except e: handler], for the one exception class [e]. *)
Definition exn_eqb (a b : exn) : bool :=
  match a, b with
  | TimeoutExpired, TimeoutExpired
  | OSError, OSError
  | UnicodeDecodeError, UnicodeDecodeError
  | AttributeError, AttributeError
  | KeyboardInterrupt, KeyboardInterrupt => true
  | _, _ => false
  end.

Definition try_except {A} (body : M A) (e : exn) (handler : M A) : M A :=
  fun w =>
    match body w with
    | (Raise e', w') => if exn_eqb e' e then handler w' else (Raise e', w')
    | other => other
    end.

(** [if c: m] *)
Definition when (c : bool) (m : M unit) : M unit := if c then m else ret tt.

(** [for x in l: body], where the body may return from the enclosing
    function ([Some r]) or fall through to the next item ([None]). *)
Fixpoint for_each {A R} (l : list A) (body : A -> M (option R)) : M (option R) :=
  match l with
  | [] => ret None
  | x :: l' =>
      r <- body x ;;
      match r with
      | Some v => ret (Some v)
      | None => for_each l' body
      end
  end.

(** [range(n)] *)
Definition range (n : Z) : list Z := map Z.of_nat (seq 0 (Z.to_nat n)).

(** [while cond: body] with loop-carried variables [s]; the body either goes
    round again or returns from the enclosing function. *)
Inductive flow (S R : Type) : Type :=
| Next (s : S)
| Return (r : R).

Arguments Next {S R} s.
Arguments Return {S R} r.

Fixpoint while_loop {S R} (fuel : nat) (cond : S -> M bool)
    (body : S -> M (flow S R)) (s : S) : M (flow S R) :=
  match fuel with
  | O => diverge
  | Datatypes.S fuel' =>
      c <- cond s ;;
      if c then
        f <- body s ;;
        match f with
        | Next s' => while_loop fuel' cond body s'
        | Return r => ret (Return r)
        end
      else ret (Next s)
  end.

(** ** Primitive interactions *)

Section Primitives.
Variable E : env.

(** One interaction: it is recorded (when it leaves a mark), takes
    [nominal] ticks plus whatever the world adds. *)
Definition interact (ev : option event) (nominal : Z) (spawned : nat) (w : world) : world :=
  {| now := now w + nominal + Z.of_N (lag E (steps w));
     spawns := spawned + spawns w;
     steps := S (steps w);
     trace := match ev with Some e => e :: trace w | None => trace w end |}.

(** Recording without interacting. *)
Definition tell (ev : event) : M unit :=
  fun w => (Ret tt, {| now := now w; spawns := spawns w; steps := steps w;
                       trace := ev :: trace w |}).

Definition print (line : string) : M unit := tell (EvPrint line).

Record CompletedProcess : Type := {
  returncode : Z;
  stdout : string;
  stderr : string
}.

(** [subprocess.run(cmd, stdout=PIPE, stderr=PIPE, text=True, timeout=..,
    cwd=.., input=..)] *)
Definition subprocess_run (cmd : command) (cwd input : option string) (timeout : Z)
  : M CompletedProcess :=
  fun w =>
    let w' := interact (Some (EvRun cmd cwd input timeout)) 0 1 w in
    match proc E (spawns w) with
    | Exited rc out err =>
        (Ret {| returncode := rc; stdout := out; stderr := err |}, w')
    | TimedOut => (Raise TimeoutExpired, w')
    | SpawnFailed => (Raise OSError, w')
    | DecodeFailed => (Raise UnicodeDecodeError, w')
    end.

(** [time.sleep(seconds)] *)
Definition sleep (seconds : Z) : M unit :=
  fun w => (Ret tt, interact (Some (EvSleep seconds)) (seconds * Z.pos (hz E)) 0 w).

(** [time.sleep(seconds)] at a place where the script handles Ctrl-C. *)
Definition sleep_interruptible (seconds : Z) : M unit :=
  fun w =>
    let w' := interact (Some (EvSleep seconds)) (seconds * Z.pos (hz E)) 0 w in
    if interrupted E (steps w) then (Raise KeyboardInterrupt, w') else (Ret tt, w').

(** [time.time()], in ticks; the reading is recorded. *)
Definition time_time : M Z :=
  fun w => (Ret (now w), {| now := now w; spawns := spawns w; steps := steps w;
                            trace := EvTime (now w) :: trace w |}).

(** [int(time.time() - start_time)], whole seconds *)
Definition elapsed_seconds (start_time : Z) : M Z :=
  t <- time_time ;;
  ret (Z.quot (t - start_time) (Z.pos (hz E))).

(** [os.path.exists(path)] *)
Definition os_path_exists (path : string) : M bool :=
  fun w => (Ret (path_exists E (steps w) path), interact None 0 0 w).

(** [subprocess.Popen(args, stdout=DEVNULL, stderr=DEVNULL)]; the handle
    is the argument vector. *)
Definition subprocess_Popen (args : list string) : M (list string) :=
  fun w =>
    let w' := interact (Some (EvPopen args)) 0 0 w in
    if popen_fails E (steps w) then (Raise OSError, w') else (Ret args, w').

Definition terminate (handle : list string) : M unit :=
  fun w => (Ret tt, interact (Some (EvTerminate handle)) 0 0 w).

Definition os_environ_set (key value : string) : M unit :=
  fun w => (Ret tt, interact (Some (EvSetenv key value)) 0 0 w).

(** The timestamp [log] prints. *)
Definition timestamp : M string := fun w => (Ret (strftime E (now w)), w).

(** Entering and leaving a recorded function. *)
Definition recorded (f : func) (body : M bool) : M bool :=
  tell (EvCall f) ;;
  r <- body ;;
  tell (EvReturn f r) ;;
  ret r.

(** [log(level, message)], the same in both scripts. *)
Definition ESC : string := String (ascii_of_nat 27) EmptyString.

Definition levels : list (string * string) :=
  [ ("INFO", ESC ++ "[92m");
    ("WARN", ESC ++ "[93m");
    ("ERROR", ESC ++ "[91m");
    ("DEBUG", ESC ++ "[94m") ].

Fixpoint dict_get {V} (d : list (string * V)) (key : string) (default : V) : V :=
  match d with
  | [] => default
  | (k, v) :: d' => if (k =? key)%string then v else dict_get d' key default
  end.

Definition log (level message : string) : M unit :=
  ts <- timestamp ;;
  let color := dict_get levels level (ESC ++ "[0m") in
  let reset := ESC ++ "[0m" in
  print (color ++ "[" ++ level ++ "]" ++ reset ++ " " ++ ts ++ " - " ++ message).

(** How a command shows in a log line:
    [command if shell else ' '.join(command)]. *)
Definition show_command (cmd : command) : string :=
  match cmd with
  | ShellLine line => line
  | Argv args => join " " args
  end.

(** [status_json.get("Host", "") == "Running"] on the value of
    [json.loads]; anything but a dict has no [get]. *)
Definition host_is_running (j : json) : M bool :=
  match j with
  | JObject items =>
      match dict_get items "Host" (JString "") with
      | JString s => ret (s =? "Running")%string
      | _ => ret false
      end
  | _ => raise AttributeError
  end.

End Primitives.

(** ** [deploy_app.py] *)

Module DeployApp.
Section Script.
Variable E : env.

Definition PROJECT_ROOT : string := "/home/kiran/Desktop/Mthree-Notes/react-sre-project".
Definition REACT_APP_DIR : string := path_join PROJECT_ROOT "sre-react-app".
Definition K8S_DIR : string := path_join PROJECT_ROOT "kubernetes".
Definition MONITORING_DIR : string := path_join PROJECT_ROOT "monitoring".
Definition DEPLOY_TIMEOUT : Z := 300.
Definition KUBECTL_CMD : string := "kubectl".

(** The defaults of [run_command(command, timeout=60, retry=1, shell=False,
    cwd=None)]; [shell] is carried by the shape of the command. *)
Definition default_timeout : Z := 60.
Definition default_retry : Z := 1.

(** One turn of the [for attempt in range(retry)] loop. *)
Definition run_command_attempt (cmd : command) (timeout retry : Z) (cwd : option string)
    (attempt : Z) : M (option (option string)) :=
  try_except
    (log E "DEBUG" ("Running command: " ++ show_command cmd) ;;
     result <- subprocess_run E cmd cwd None timeout ;;
     if returncode result =? 0 then
       ret (Some (Some (strip (stdout result))))
     else
       log E "WARN" ("Command failed (attempt " ++ str_of_Z (attempt + 1) ++ "/"
                       ++ str_of_Z retry ++ "): " ++ stderr result) ;;
       when (attempt <? retry - 1) (sleep E 5) ;;
       ret None)
    TimeoutExpired
    (log E "WARN" ("Command timed out after " ++ str_of_Z timeout ++ "s (attempt "
                     ++ str_of_Z (attempt + 1) ++ "/" ++ str_of_Z retry ++ ")") ;;
     when (attempt <? retry - 1) (sleep E 5) ;;
     ret None).

(** [run_command]: the stripped output of the first attempt that exits 0,
    [None] when every attempt failed. *)
Definition run_command (cmd : command) (timeout retry : Z) (cwd : option string)
    : M (option string) :=
  r <- for_each (range retry) (run_command_attempt cmd timeout retry cwd) ;;
  match r with
  | Some v => ret v
  | None =>
      log E "ERROR" ("Command failed after " ++ str_of_Z retry ++ " attempts: "
                       ++ show_command cmd) ;;
      ret None
  end.

Definition status_query : command := Argv ["minikube"; "status"; "-o"; "json"].

Definition check_minikube_status : M bool :=
  recorded Fn_check_minikube_status
    (status <- run_command status_query 10 default_retry None ;;
     if truthy status then
       match status with
       | Some s =>
           match json_loads E s with
           | Some status_json => host_is_running status_json
           | None => ret (contains "Running" s)
           end
       | None => ret false
       end
     else ret false).

Definition build_react_app : M bool :=
  recorded Fn_build_react_app
    (log E "INFO" "Building React application..." ;;
     present <- os_path_exists E REACT_APP_DIR ;;
     if negb present then
       log E "ERROR" ("React app directory does not exist: " ++ REACT_APP_DIR) ;;
       ret false
     else
       log E "INFO" "Installing npm dependencies..." ;;
       result <- run_command (Argv ["npm"; "install"; "--legacy-peer-deps"]) 300
                   default_retry (Some REACT_APP_DIR) ;;
       match result with
       | None => log E "ERROR" "Failed to install npm dependencies" ;; ret false
       | Some _ =>
           log E "INFO" "Building React application..." ;;
           result <- run_command (Argv ["npm"; "run"; "build"]) 300
                       default_retry (Some REACT_APP_DIR) ;;
           match result with
           | None => log E "ERROR" "Failed to build React application" ;; ret false
           | Some _ => log E "INFO" "React application built successfully" ;; ret true
           end
       end).

Definition build_docker_image : M bool :=
  recorded Fn_build_docker_image
    (log E "INFO" "Building Docker image..." ;;
     present <- os_path_exists E (path_join REACT_APP_DIR "Dockerfile") ;;
     if negb present then
       log E "ERROR" "Dockerfile not found in React app directory" ;;
       ret false
     else
       result <- run_command (Argv ["docker"; "build"; "-t"; "react-sre-app:latest"; "."])
                   300 default_retry (Some REACT_APP_DIR) ;;
       match result with
       | None => log E "ERROR" "Failed to build Docker image" ;; ret false
       | Some _ =>
           log E "INFO" "Loading Docker image into Minikube..." ;;
           result <- run_command (Argv ["minikube"; "image"; "load"; "react-sre-app:latest"])
                       120 default_retry None ;;
           match result with
           | None => log E "ERROR" "Failed to load Docker image into Minikube" ;; ret false
           | Some _ => log E "INFO" "Docker image built and loaded successfully" ;; ret true
           end
       end).

(** One turn of [for namespace in namespaces]: render the manifest with a
    dry run, then pipe it to [kubectl apply -f -]. *)
Definition create_namespace (namespace : string) : M (option bool) :=
  result <- run_command
              (Argv [KUBECTL_CMD; "create"; "namespace"; namespace; "--dry-run=client"; "-o"; "yaml"])
              10 default_retry None ;;
  match result with
  | None =>
      log E "ERROR" ("Failed to generate namespace YAML for " ++ namespace) ;;
      ret (Some false)
  | Some yaml =>
      try_except
        (log E "DEBUG" ("Applying namespace YAML for " ++ namespace) ;;
         apply_proc <- subprocess_run E (Argv [KUBECTL_CMD; "apply"; "-f"; "-"]) None
                         (Some yaml) 30 ;;
         if negb (returncode apply_proc =? 0) then
           log E "ERROR" ("Failed to create namespace " ++ namespace ++ ": "
                            ++ stderr apply_proc) ;;
           ret (Some false)
         else ret None)
        TimeoutExpired
        (log E "ERROR" ("Timeout while applying namespace " ++ namespace) ;;
         ret (Some false))
  end.

Definition create_namespaces : M bool :=
  recorded Fn_create_namespaces
    (log E "INFO" "Creating Kubernetes namespaces..." ;;
     let namespaces := ["react-sre-app"; "monitoring"] in
     r <- for_each namespaces create_namespace ;;
     match r with
     | Some v => ret v
     | None => log E "INFO" "Kubernetes namespaces created successfully" ;; ret true
     end).

(** The status queries of the readiness loops. *)
Definition pod_phase_query (namespace label jsonpath : string) : command :=
  Argv [KUBECTL_CMD; "get"; "pods"; "-n"; namespace; "-l"; label; "-o"; jsonpath].

Definition prometheus_query : command :=
  pod_phase_query "monitoring" "app=prometheus" "jsonpath='{.items[0].status.phase}'".
Definition grafana_query : command :=
  pod_phase_query "monitoring" "app=grafana" "jsonpath='{.items[0].status.phase}'".
Definition application_query : command :=
  pod_phase_query "react-sre-app" "app=react-sre-app" "jsonpath='{.items[*].status.phase}'".

(** [status and "Running" in status] *)
Definition reports_running (status : option string) : bool :=
  truthy status && match status with Some s => contains "Running" s | None => false end.

(** The [while] loop of [deploy_monitoring]; the loop-carried variables are
    [(prometheus_ready, grafana_ready)]. *)
Definition monitoring_elapsed_lt (start_time : Z) (_ : bool * bool) : M bool :=
  t <- time_time ;;
  ret (t - start_time <? DEPLOY_TIMEOUT * Z.pos (hz E)).

Definition monitoring_poll (start_time : Z) (ready : bool * bool) : M (flow (bool * bool) bool) :=
  let '(prometheus_ready, grafana_ready) := ready in
  prometheus_ready <-
    (if negb prometheus_ready then
       prom_status <- run_command prometheus_query 10 default_retry None ;;
       if reports_running prom_status then
         log E "INFO" "Prometheus is ready" ;; ret true
       else ret prometheus_ready
     else ret prometheus_ready) ;;
  grafana_ready <-
    (if negb grafana_ready then
       graf_status <- run_command grafana_query 10 default_retry None ;;
       if reports_running graf_status then
         log E "INFO" "Grafana is ready" ;; ret true
       else ret grafana_ready
     else ret grafana_ready) ;;
  if prometheus_ready && grafana_ready then
    log E "INFO" "Monitoring stack deployed successfully" ;;
    ret (Return true)
  else
    elapsed <- elapsed_seconds E start_time ;;
    log E "INFO" ("Waiting for monitoring stack... (" ++ str_of_Z elapsed ++ "s elapsed)") ;;
    sleep E 10 ;;
    ret (Next (prometheus_ready, grafana_ready)).

Definition deploy_monitoring (fuel : nat) : M bool :=
  recorded Fn_deploy_monitoring
    (log E "INFO" "Deploying monitoring stack..." ;;
     log E "INFO" "Deploying Prometheus..." ;;
     let prometheus_yaml := path_join MONITORING_DIR "prometheus-k8s.yaml" in
     present <- os_path_exists E prometheus_yaml ;;
     if negb present then
       log E "ERROR" ("Prometheus Kubernetes YAML not found: " ++ prometheus_yaml) ;;
       ret false
     else
       result <- run_command (Argv [KUBECTL_CMD; "apply"; "-f"; prometheus_yaml]) 30 3 None ;;
       match result with
       | None => log E "ERROR" "Failed to deploy Prometheus" ;; ret false
       | Some _ =>
           log E "INFO" "Deploying Grafana..." ;;
           let grafana_yaml := path_join MONITORING_DIR "grafana-k8s.yaml" in
           present <- os_path_exists E grafana_yaml ;;
           if negb present then
             log E "ERROR" ("Grafana Kubernetes YAML not found: " ++ grafana_yaml) ;;
             ret false
           else
             result <- run_command (Argv [KUBECTL_CMD; "apply"; "-f"; grafana_yaml]) 30 3 None ;;
             match result with
             | None => log E "ERROR" "Failed to deploy Grafana" ;; ret false
             | Some _ =>
                 log E "INFO" "Waiting for monitoring stack to be ready..." ;;
                 start_time <- time_time ;;
                 f <- while_loop fuel (monitoring_elapsed_lt start_time)
                        (monitoring_poll start_time) (false, false) ;;
                 match f with
                 | Return r => ret r
                 | Next _ =>
                     log E "ERROR" ("Monitoring stack deployment timed out after "
                                      ++ str_of_Z DEPLOY_TIMEOUT ++ "s") ;;
                     ret false
                 end
             end
       end).

(** [--env {dev,prod}] *)
Inductive environment : Type := dev | prod.

Definition environment_name (e : environment) : string :=
  match e with dev => "dev" | prod => "prod" end.

(** The [while] loop of [deploy_application]; nothing is carried round. *)
Definition application_elapsed_lt (start_time : Z) (_ : unit) : M bool :=
  t <- time_time ;;
  ret (t - start_time <? DEPLOY_TIMEOUT * Z.pos (hz E)).

(** [app_status and "Running" in app_status and "Pending" not in app_status] *)
Definition application_ready (app_status : option string) : bool :=
  reports_running app_status
  && match app_status with Some s => negb (contains "Pending" s) | None => false end.

Definition application_poll (start_time : Z) (_ : unit) : M (flow unit bool) :=
  app_status <- run_command application_query 10 default_retry None ;;
  if application_ready app_status then
    log E "INFO" "Application is ready" ;;
    ret (Return true)
  else
    elapsed <- elapsed_seconds E start_time ;;
    log E "INFO" ("Waiting for application... (" ++ str_of_Z elapsed ++ "s elapsed)") ;;
    sleep E 10 ;;
    ret (Next tt).

Definition deploy_application (env_ : environment) (fuel : nat) : M bool :=
  recorded Fn_deploy_application
    (log E "INFO" ("Deploying React application to " ++ environment_name env_
                     ++ " environment...") ;;
     let kustomize_dir := path_join (path_join K8S_DIR "overlays") (environment_name env_) in
     present <- os_path_exists E kustomize_dir ;;
     if negb present then
       log E "ERROR" ("Kubernetes overlay directory not found: " ++ kustomize_dir) ;;
       ret false
     else
       result <- run_command (Argv [KUBECTL_CMD; "apply"; "-k"; kustomize_dir]) 60 3 None ;;
       match result with
       | None =>
           log E "ERROR" ("Failed to deploy application to " ++ environment_name env_
                            ++ " environment") ;;
           ret false
       | Some _ =>
           log E "INFO" "Waiting for application to be ready..." ;;
           start_time <- time_time ;;
           f <- while_loop fuel (application_elapsed_lt start_time)
                  (application_poll start_time) tt ;;
           match f with
           | Return r => ret r
           | Next _ =>
               log E "ERROR" ("Application deployment timed out after "
                                ++ str_of_Z DEPLOY_TIMEOUT ++ "s") ;;
               ret false
           end
       end).

(** The [while True: time.sleep(1)] loop of [setup_port_forwarding]. *)
Definition forever_true (_ : unit) : M bool := ret true.

Definition sleep_one (_ : unit) : M (flow unit unit) :=
  sleep_interruptible E 1 ;; ret (Next tt).

Definition setup_port_forwarding (fuel : nat) : M unit :=
  tell (EvCall Fn_setup_port_forwarding) ;;
  log E "INFO" "Setting up port forwarding..." ;;
  app_forward <- subprocess_Popen E
    [KUBECTL_CMD; "port-forward"; "svc/dev-react-sre-app"; "3000:80"; "-n"; "react-sre-app"] ;;
  prom_forward <- subprocess_Popen E
    [KUBECTL_CMD; "port-forward"; "svc/prometheus"; "9090:9090"; "-n"; "monitoring"] ;;
  graf_forward <- subprocess_Popen E
    [KUBECTL_CMD; "port-forward"; "svc/grafana"; "8081:3000"; "-n"; "monitoring"] ;;
  log E "INFO" "Port forwarding set up successfully" ;;
  log E "INFO" "Application available at http://localhost:3000" ;;
  log E "INFO" "Prometheus available at http://localhost:9090" ;;
  log E "INFO" "Grafana available at http://localhost:8081 (admin/admin)" ;;
  try_except
    (log E "INFO" "Press Ctrl+C to stop port forwarding" ;;
     while_loop (R := unit) fuel forever_true sleep_one tt ;;
     ret tt)
    KeyboardInterrupt
    (log E "INFO" "Stopping port forwarding..." ;;
     terminate E app_forward ;;
     terminate E prom_forward ;;
     terminate E graf_forward).

(** The parsed command line. *)
Record arguments : Type := {
  env_ : environment;
  skip_build : bool;
  skip_monitoring : bool;
  port_forward : bool
}.

(** [main]; its value is the success flag, the exit status of the script
    being [0 if success else 1]. *)
Definition main (args : arguments) (fuel : nat) : M bool :=
  running <- check_minikube_status ;;
  if negb running then
    log E "ERROR" "Minikube is not running. Please start it first." ;;
    ret false
  else
    let success := true in
    namespaces_ok <- create_namespaces ;;
    if negb namespaces_ok then ret false
    else
      (* [if not args.skip_build:], whose two [return False] leave [main] *)
      left <-
        (if negb (skip_build args) then
           react_ok <- build_react_app ;;
           if negb react_ok then ret (Some false)
           else
             image_ok <- build_docker_image ;;
             if negb image_ok then ret (Some false) else ret None
         else ret None) ;;
      match left with
      | Some v => ret v
      | None =>
          success <-
            (if negb (skip_monitoring args) then
               monitoring_ok <- deploy_monitoring fuel ;;
               if negb monitoring_ok then ret false else ret success
             else ret success) ;;
          application_ok <- deploy_application (env_ args) fuel ;;
          let success := if negb application_ok then false else success in
          when (port_forward args && success) (setup_port_forwarding fuel) ;;
          (if success then log E "INFO" "Deployment completed successfully"
           else log E "ERROR" "Deployment completed with errors") ;;
          ret success
      end.

End Script.
End DeployApp.

(** ** [minikube_control.py] *)

Module MinikubeControl.
Section Script.
Variable E : env.

Definition MINIKUBE_WAIT_TIMEOUT : Z := 60.
Definition KUBECTL_CMD : string := "kubectl".

(** The defaults of [run_command(command, timeout=60, retry=3)]. *)
Definition default_timeout : Z := 60.
Definition default_retry : Z := 3.

(** One turn of the [for attempt in range(retry)] loop. *)
Definition run_command_attempt (cmd : list string) (timeout retry : Z) (attempt : Z)
    : M (option (option string)) :=
  try_except
    (log E "DEBUG" ("Running command: " ++ join " " cmd) ;;
     result <- subprocess_run E (Argv cmd) None None timeout ;;
     print (stdout result) ;;
     if returncode result =? 0 then
       ret (Some (Some (strip (stdout result))))
     else
       log E "WARN" ("Command failed (attempt " ++ str_of_Z (attempt + 1) ++ "/"
                       ++ str_of_Z retry ++ "): " ++ stderr result) ;;
       sleep E 5 ;;
       ret None)
    TimeoutExpired
    (log E "WARN" ("Command timed out after " ++ str_of_Z timeout ++ "s (attempt "
                     ++ str_of_Z (attempt + 1) ++ "/" ++ str_of_Z retry ++ ")") ;;
     sleep E 5 ;;
     ret None).

Definition run_command (cmd : list string) (timeout retry : Z) : M (option string) :=
  r <- for_each (range retry) (run_command_attempt cmd timeout retry) ;;
  match r with
  | Some v => ret v
  | None =>
      log E "ERROR" ("Command failed after " ++ str_of_Z retry ++ " attempts: "
                       ++ join " " cmd) ;;
      ret None
  end.

Definition status_query : list string := ["minikube"; "status"; "-o"; "json"].

Definition check_minikube_status : M bool :=
  status <- run_command status_query 10 default_retry ;;
  if truthy status then
    match status with
    | Some s =>
        match json_loads E s with
        | Some status_json => host_is_running status_json
        | None => ret (contains "Running" s)
        end
    | None => ret false
    end
  else ret false.

(** The [while] loop of [start_minikube]; nothing is carried round. *)
Definition start_elapsed_lt (start_time : Z) (_ : unit) : M bool :=
  t <- time_time ;;
  ret (t - start_time <? MINIKUBE_WAIT_TIMEOUT * Z.pos (hz E)).

Definition start_poll (start_time : Z) (_ : unit) : M (flow unit bool) :=
  running <- check_minikube_status ;;
  validated <-
    (if running then
       version <- run_command [KUBECTL_CMD; "version"; "--output=yaml"] 10 default_retry ;;
       if truthy version then
         log E "INFO" "Minikube started successfully" ;; ret true
       else ret false
     else ret false) ;;
  if (validated : bool) then ret (Return true)
  else
    elapsed <- elapsed_seconds E start_time ;;
    log E "INFO" ("Waiting for Minikube to be ready... (" ++ str_of_Z elapsed
                    ++ "s elapsed)") ;;
    sleep E 5 ;;
    ret (Next tt).

Definition start_command : list string :=
  ["minikube"; "start"; "--memory=4096"; "--cpus=2"; "--driver=docker"].

Definition start_minikube (fuel : nat) : M bool :=
  (running <- check_minikube_status ;;
     if running then
       log E "INFO" "Minikube is already running" ;;
       ret true
     else
       log E "INFO" ("Starting Minikube (timeout: " ++ str_of_Z MINIKUBE_WAIT_TIMEOUT ++ "s)") ;;
       os_environ_set E "WZEGH_CONFIGURED" "TRUE" ;;
       result <- run_command start_command MINIKUBE_WAIT_TIMEOUT default_retry ;;
       match result with
       | None => log E "ERROR" "Failed to start Minikube" ;; ret false
       | Some _ =>
           start_time <- time_time ;;
           f <- while_loop fuel (start_elapsed_lt start_time) (start_poll start_time) tt ;;
           match f with
           | Return r => ret r
           | Next _ =>
               log E "ERROR" ("Minikube failed to start within "
                                ++ str_of_Z MINIKUBE_WAIT_TIMEOUT ++ "s") ;;
               ret false
           end
       end).

Definition stop_minikube : M bool :=
  (running <- check_minikube_status ;;
     if negb running then
       log E "INFO" "Minikube is not running" ;;
       ret true
     else
       log E "INFO" "Stopping Minikube" ;;
       result <- run_command ["minikube"; "stop"] MINIKUBE_WAIT_TIMEOUT default_retry ;;
       match result with
       | None => log E "ERROR" "Failed to stop Minikube" ;; ret false
       | Some _ => log E "INFO" "Minikube stopped successfully" ;; ret true
       end).

(** The positional argument of the command line. *)
Inductive action : Type := start | stop | status | restart.

(** [main]; its value is the exit status handed to [sys.exit]. *)
Definition main (act : action) (fuel : nat) : M Z :=
  success <-
    match act with
    | start => start_minikube fuel
    | stop => stop_minikube
    | restart =>
        stop_minikube ;;
        sleep E 5 ;;
        start_minikube fuel
    | status =>
        st <- check_minikube_status ;;
        log E "INFO" ("Minikube is " ++ (if st then "running" else "not running")) ;;
        ret true
    end ;;
  ret (if (success : bool) then 0 else 1).

End Script.
End MinikubeControl.

(** ** Observing a run *)

#[local] Open Scope list_scope.

(** Attempts: the [subprocess.run] calls in a trace. *)
Definition is_run (ev : event) : bool :=
  match ev with EvRun _ _ _ _ => true | _ => false end.

Definition attempts (tr : list event) : nat := List.length (filter is_run tr).

(** Attempts and sleeps, the skeleton of the retry logic. *)
Definition is_effect (ev : event) : bool :=
  match ev with EvRun _ _ _ _ | EvSleep _ => true | _ => false end.

Definition effects (tr : list event) : list event := filter is_effect tr.

(** [k] rounds of "sleep, then run", newest first. *)
Fixpoint backoff_rounds (k : nat) (r s : event) : list event :=
  match k with
  | O => []
  | S k' => s :: r :: backoff_rounds k' r s
  end.

(** [k] attempts with a sleep between any two consecutive ones and none
    after the last: run, (sleep, run), ..., (sleep, run).  The list reads
    the same oldest first and newest first. *)
Definition interleaved (k : nat) (r s : event) : list event :=
  match k with
  | O => []
  | S k' => r :: backoff_rounds k' r s
  end.

(** What one attempt makes of the way its process ended. *)
Definition attempt_verdict (c : completion) : result (option (option string)) :=
  match c with
  | Exited rc out _ => if rc =? 0 then Ret (Some (Some (strip out))) else Ret None
  | TimedOut => Ret None
  | SpawnFailed => Raise OSError
  | DecodeFailed => Raise UnicodeDecodeError
  end.

(** The exception a process raises in [subprocess.run] beyond the timeout,
    which no handler of the scripts catches. *)
Definition raised (c : completion) (e : exn) : Prop :=
  (c = SpawnFailed /\ e = OSError) \/ (c = DecodeFailed /\ e = UnicodeDecodeError).

(** The process ended in a way the retry logic handles: in an exit status
    with its output decoded, or in the timeout. *)
Definition handled (c : completion) : Prop :=
  match c with
  | Exited _ _ _ | TimedOut => True
  | SpawnFailed | DecodeFailed => False
  end.

(** The events [run_command] may leave. *)
Definition command_event (cmd : command) (cwd : option string) (timeout : Z)
    (ev : event) : Prop :=
  match ev with
  | EvPrint _ => True
  | EvRun c d i t => c = cmd /\ d = cwd /\ i = None /\ t = timeout
  | EvSleep s => s = 5
  | _ => False
  end.

(** How [run_command] settles on processes [s], [s+1], ... after [k]
    attempts: all but the last failed, and the last one decides; what the
    last one raises leaves the call. *)
Definition settled (E : env) (s k : nat) (retry : Z) (r : result (option string)) : Prop :=
  (forall j, (j < pred k)%nat -> attempt_failed (proc E (s + j))) /\
  match r with
  | Ret (Some text) =>
      (0 < k)%nat /\
      exists out err, proc E (s + pred k) = Exited 0 out err /\ text = strip out
  | Ret None =>
      k = Z.to_nat retry /\
      forall j, (j < k)%nat -> attempt_failed (proc E (s + j))
  | Raise e => (0 < k)%nat /\ raised (proc E (s + pred k)) e
  | Diverge => False
  end.

(** A recorded function was entered, or returned [False], in a trace. *)
Definition entered (f : func) (tr : list event) : Prop := In (EvCall f) tr.

Definition failed (f : func) (tr : list event) : Prop := In (EvReturn f false) tr.

(** The stages of the pipeline in the order [main] runs them; the cluster
    check comes before the first. *)
Definition stage_index (f : func) : nat :=
  match f with
  | Fn_check_minikube_status => 0
  | Fn_create_namespaces => 1
  | Fn_build_react_app => 2
  | Fn_build_docker_image => 3
  | Fn_deploy_monitoring => 4
  | Fn_deploy_application => 5
  | Fn_setup_port_forwarding => 6
  end.

(** Fatal stages: namespace creation, the two build steps and the
    application deploy.  The monitoring deploy is the soft stage. *)
Definition fatal (f : func) : bool :=
  match f with
  | Fn_create_namespaces | Fn_build_react_app | Fn_build_docker_image
  | Fn_deploy_application => true
  | _ => false
  end.

(** The fatal stages that have a stage after them. *)
Definition halting (f : func) : bool :=
  match f with
  | Fn_create_namespaces | Fn_build_react_app | Fn_build_docker_image => true
  | _ => false
  end.

(** A loop of attempts fell through: every attempt failed. *)
Definition exhausted {A} (r : result (option A)) : bool :=
  match r with Ret None => true | _ => false end.

(** [emits P m]: whatever the world answers, and however [m] ends, [m] only
    adds events satisfying [P] to the trace. *)
Definition emits {A} (P : event -> Prop) (m : M A) : Prop :=
  forall w, exists evs, trace (snd (m w)) = evs ++ trace w /\ Forall P evs.

(** The record a function leaves when it is done. *)
Definition verdict (f : func) (r : result bool) : list event :=
  match r with
  | Ret b => [EvReturn f b]
  | _ => []
  end.

(** What the body of the recorded function [f] may leave: prints, sleeps,
    readings of the clock and attempts; the cluster check only ever runs
    the status query. *)
Definition quiet (f : func) (ev : event) : Prop :=
  match ev with
  | EvPrint _ | EvSleep _ | EvTime _ => True
  | EvRun cmd _ _ _ => f = Fn_check_minikube_status -> cmd = DeployApp.status_query
  | _ => False
  end.

(** Each stage of the pipeline, and the cluster check before them, leaves
    its call, what its body does, and its result if it returns. *)
Definition stage_spec (f : func) (stage : M bool) : Prop :=
  forall w, exists r w' evs,
    stage w = (r, w') /\
    trace w' = verdict f r ++ evs ++ EvCall f :: trace w /\
    Forall (quiet f) evs.

(** Port forwarding starts processes and, on Ctrl-C, terminates them. *)
Definition forwarding (ev : event) : Prop :=
  match ev with
  | EvPrint _ | EvSleep _ | EvPopen _ | EvTerminate _ => True
  | _ => False
  end.

(** What [start_minikube] may leave when it has nothing to do: log lines
    and the attempts of the status query, with their backoff. *)
Definition read_only (ev : event) : Prop :=
  match ev with
  | EvPrint _ => True
  | EvSleep s => s = 5
  | EvRun cmd cwd input timeout =>
      cmd = Argv MinikubeControl.status_query /\ cwd = None /\ input = None /\ timeout = 10
  | _ => False
  end.

(** *** Polling for readiness *)

(** The readings of the clock in a trace, newest first. *)
Definition readings (tr : list event) : list Z :=
  flat_map (fun ev => match ev with EvTime t => [t] | _ => [] end) tr.

(** The latest reading in a stretch of events, [c] when it has none. *)
Definition latest (c : option Z) (evs : list event) : option Z :=
  match readings evs with
  | t :: _ => Some t
  | [] => c
  end.

(** Two commands are the same. *)
Fixpoint args_eqb (a b : list string) : bool :=
  match a, b with
  | [], [] => true
  | x :: a', y :: b' => (x =? y)%string && args_eqb a' b'
  | _, _ => false
  end.

Definition command_eqb (a b : command) : bool :=
  match a, b with
  | Argv x, Argv y => args_eqb x y
  | ShellLine x, ShellLine y => (x =? y)%string
  | _, _ => false
  end.

(** A process a script ran: its command, the latest reading of the clock
    when it was started, and how it ended. *)
Record started : Type := {
  what : command;
  asked_at : option Z;
  answer : completion
}.

(** The processes run in a stretch of events (newest first, as a trace is),
    oldest first.  The stretch begins with process [s] and with [c] the
    latest reading of the clock: an attempt is the process numbered by the
    attempts before it, started after the readings before it. *)
Fixpoint ran (E : env) (s : nat) (c : option Z) (evs : list event) : list started :=
  match evs with
  | [] => []
  | ev :: older =>
      ran E s c older ++
      match ev with
      | EvRun cmd _ _ _ =>
          [{| what := cmd; asked_at := latest c older;
              answer := proc E (s + attempts older) |}]
      | _ => []
      end
  end.

(** What [run_command], trying once, returns for a process that ended in
    an exit status or a timeout: the stripped output on exit 0, [None]
    otherwise. *)
Definition status_of (c : completion) : option string :=
  match c with
  | Exited rc out _ => if rc =? 0 then Some (strip out) else None
  | _ => None
  end.

(** The process ran the query [q] and what it answered passes [test]. *)
Definition answered (q : command) (test : option string -> bool) (p : started) : bool :=
  command_eqb (what p) q && test (status_of (answer p)).

(** The process is a poll: it ran one of the status queries. *)
Definition is_poll (queries : list command) (p : started) : bool :=
  existsb (command_eqb (what p)) queries.

(** The readiness of the application, and of the monitoring stack, as the
    polls of a call have shown it. *)
Definition application_seen_ready (seen : list started) : bool :=
  existsb (answered DeployApp.application_query DeployApp.application_ready) seen.

Definition monitoring_seen_ready (seen : list started) : bool :=
  existsb (answered DeployApp.prometheus_query DeployApp.reports_running) seen
  && existsb (answered DeployApp.grafana_query DeployApp.reports_running) seen.

(** The flags of the loop say what the polls have shown, and are not both
    set when a turn begins. *)
Definition flags_track (ready : bool * bool) (seen : list started) : Prop :=
  fst ready = existsb (answered DeployApp.prometheus_query DeployApp.reports_running) seen /\
  snd ready = existsb (answered DeployApp.grafana_query DeployApp.reports_running) seen /\
  fst ready && snd ready = false.

(** The world after a reading of the clock. *)
Definition after_reading (w : world) : world :=
  {| now := now w; spawns := spawns w; steps := steps w;
     trace := EvTime (now w) :: trace w |}.

(** What a call [run] of a deploy function, made in world [w], does about
    readiness.  With [seen] the processes of the call, the time elapsed
    being counted from the first reading of the clock in the call, which is
    the [start_time] of the loop:
    - the call ends, having run [most] processes at most;
    - a poll is started only while the deadline has not passed;
    - the call returns [True] exactly when its polls have shown readiness;
    - it returns [False] after a poll only once the deadline has passed;
    - what it raises is what its last process raised;
    - when no process raises and readiness never shows, it returns [False];
    - when every path is there and every process exits 0, it does poll. *)
Definition polls_until_deadline (E : env) (queries : list command)
    (ready : list started -> bool) (most : nat) (w : world)
    (run : result bool * world) : Prop :=
  exists evs,
    trace (snd run) = evs ++ trace w /\
    let seen := ran E (spawns w) None evs in
    let elapsed := fun t => t - last (readings evs) t in
    let deadline := DeployApp.DEPLOY_TIMEOUT * Z.pos (hz E) in
    fst run <> Diverge /\
    (attempts evs <= most)%nat /\
    (forall p, In p seen -> is_poll queries p = true ->
       exists t, asked_at p = Some t /\ elapsed t < deadline) /\
    (fst run = Ret true <-> ready seen = true) /\
    (fst run = Ret false -> existsb (is_poll queries) seen = true ->
       exists t, hd_error (readings evs) = Some t /\ deadline <= elapsed t) /\
    (forall e, fst run = Raise e -> raised (proc E (pred (spawns (snd run)))) e) /\
    ((forall n, handled (proc E n)) -> ready seen = false -> fst run = Ret false) /\
    ((forall n p, path_exists E n p = true) ->
     (forall n, exists out err, proc E n = Exited 0 out err) ->
     existsb (is_poll queries) seen = true).

(** ** Sample worlds *)

(** Every process exits 0 and prints [Running]; every path exists; Ctrl-C
    arrives at the hundredth interaction. *)
Definition all_well : env :=
  {| hz := 1000;
     proc := fun _ => Exited 0 "Running" "";
     lag := fun _ => 7%N;
     path_exists := fun _ _ => true;
     popen_fails := fun _ => false;
     interrupted := fun n => Nat.leb 100 n;
     json_loads := fun _ => None;
     strftime := fun _ => "2025-01-01 00:00:00" |}.

(** As [all_well], with another process table. *)
Definition with_proc (p : nat -> completion) : env :=
  {| hz := hz all_well; proc := p; lag := lag all_well;
     path_exists := path_exists all_well; popen_fails := popen_fails all_well;
     interrupted := interrupted all_well; json_loads := json_loads all_well;
     strftime := strftime all_well |}.

(** Every process exits 1: in particular the cluster is reported down. *)
Definition always_failing : env := with_proc (fun _ => Exited 1 "" "boom").

(** No process can be started. *)
Definition cannot_spawn : env := with_proc (fun _ => SpawnFailed).

(** Every process writes bytes that are not text. *)
Definition undecodable : env := with_proc (fun _ => DecodeFailed).

(** The first process exits 1; after it, none can be started. *)
Definition spawn_fails_on_retry : env :=
  with_proc (fun n => match n with
                      | 0%nat => Exited 1 "" "boom"
                      | _ => SpawnFailed
                      end).

(** The first two processes fail, by exit status and by timeout; the third
    succeeds. *)
Definition third_time_lucky : env :=
  with_proc (fun n => match n with
                      | 0%nat => Exited 1 "" "not yet"
                      | 1%nat => TimedOut
                      | _ => Exited 0 "  ok  " ""
                      end).

(** Processes succeed, but the pods never get beyond [Pending]. *)
Definition never_running : env := with_proc (fun _ => Exited 0 "Pending" "").

(** The first [applied] processes exit 0 and print nothing; after them no
    process can be started. *)
Definition poll_cannot_spawn (applied : nat) : env :=
  with_proc (fun n => if (n <? applied)%nat then Exited 0 "" "" else SpawnFailed).

(** As [all_well], but the path [missing] does not exist. *)
Definition without_path (missing : string) : env :=
  {| hz := hz all_well; proc := proc all_well; lag := lag all_well;
     path_exists := fun _ p => negb (p =? missing)%string;
     popen_fails := popen_fails all_well;
     interrupted := interrupted all_well; json_loads := json_loads all_well;
     strftime := strftime all_well |}.

(** The monitoring manifest is missing: the soft stage fails. *)
Definition monitoring_missing : env :=
  without_path (path_join DeployApp.MONITORING_DIR "prometheus-k8s.yaml").

(** The application directory is missing: the build fails. *)
Definition build_missing : env := without_path DeployApp.REACT_APP_DIR.

(** [deploy --env dev --port-forward] *)
Definition deploy_and_forward : DeployApp.arguments :=
  {| DeployApp.env_ := DeployApp.dev; DeployApp.skip_build := false;
     DeployApp.skip_monitoring := false; DeployApp.port_forward := true |}.

(** ** Properties *)

(** *** Traces *)

Lemma attempts_app (a b : list event) : attempts (a ++ b) = (attempts a + attempts b)%nat.
Proof. unfold attempts. now rewrite filter_app, length_app. Qed.

Lemma effects_app (a b : list event) : effects (a ++ b) = effects a ++ effects b.
Proof. apply filter_app. Qed.

Lemma backoff_rounds_snoc (k : nat) (r s : event) :
  backoff_rounds k r s ++ [s; r] = s :: r :: backoff_rounds k r s.
Proof.
  induction k as [|k IH]; [reflexivity|].
  cbn [backoff_rounds app]. now rewrite IH.
Qed.

Lemma interleaved_snoc (k : nat) (r s : event) :
  (0 < k)%nat -> interleaved k r s ++ [s; r] = interleaved (S k) r s.
Proof.
  destruct k as [|k]; [lia|]. intros _.
  cbn [interleaved app backoff_rounds]. now rewrite backoff_rounds_snoc.
Qed.

(** Running a script symbolically: the combinators and primitives unfold,
    the strings of the log lines stay as they are. *)
Ltac run_script :=
  cbv beta iota delta
    [bind ret raise diverge try_except when log print tell timestamp recorded
     subprocess_run sleep interact exn_eqb returncode stdout stderr
     os_path_exists time_time elapsed_seconds os_environ_set host_is_running
     negb andb];
  cbn [spawns trace now steps fst snd].

(** The events between two traces, the older being a suffix of the newer. *)
Ltac events_between l t :=
  lazymatch l with
  | t => constr:(@nil event)
  | ?x :: ?l' => let p := events_between l' t in constr:(x :: p)
  end.

Ltac new_events :=
  lazymatch goal with
  | |- ?l = ?e ++ ?t =>
      is_evar e; let p := events_between l t in unify e p; reflexivity
  end.

(** An attempt either fails, succeeds or raises. *)
Lemma attempt_verdict_cases (c : completion) :
  (attempt_failed c /\ attempt_failedb c = true /\ attempt_verdict c = Ret None) \/
  (exists out err, c = Exited 0 out err /\ attempt_failedb c = false /\
                   attempt_verdict c = Ret (Some (Some (strip out)))) \/
  (exists e, raised c e /\ attempt_failedb c = false /\ attempt_verdict c = Raise e).
Proof.
  destruct c as [rc out err| | |]; cbn; auto.
  - destruct (rc =? 0) eqn:Hrc; cbn.
    + apply Z.eqb_eq in Hrc. subst. right. left. eauto.
    + apply Z.eqb_neq in Hrc. auto.
  - right. right. exists OSError. unfold raised. auto.
  - right. right. exists UnicodeDecodeError. unfold raised. auto.
Qed.

(** What is raised is not handled, and the other way round. *)
Lemma raised_not_handled (c : completion) (e : exn) : raised c e -> ~ handled c.
Proof. intros [[-> _]|[-> _]]; exact (fun H => H). Qed.

Lemma raised_not_failed (c : completion) (e : exn) : raised c e -> ~ attempt_failed c.
Proof. intros [[-> _]|[-> _]]; exact (fun H => H). Qed.

Lemma raised_functional (c : completion) (e e' : exn) : raised c e -> raised c e' -> e = e'.
Proof. intros [[-> ->]|[-> ->]] [[H ->]|[H ->]]; congruence. Qed.

(** *** The retry loop

    Both scripts retry in the same way but for the backoff: [sleeps i] says
    whether a failed attempt [i] is followed by a sleep.  In either script it
    is when another attempt follows. *)

Section RetryLoop.
Variable E : env.
Variable attempt : Z -> M (option (option string)).
Variable P : event -> Prop.
Variable retry : Z.
Variable sleeps : Z -> bool.
Variables run nap : event.

Hypothesis attempt_spec :
  forall (i : Z) (w : world),
  exists w' evs,
    attempt i w = (attempt_verdict (proc E (spawns w)), w') /\
    trace w' = evs ++ trace w /\
    Forall P evs /\
    attempts evs = 1%nat /\
    spawns w' = S (spawns w) /\
    now w <= now w' /\
    effects evs =
      (if attempt_failedb (proc E (spawns w)) && sleeps i then [nap; run] else [run]).

Hypothesis sleeps_between : forall i, i < retry - 1 -> sleeps i = true.

Lemma retry_loop (n : nat) :
  forall (a : nat) (w : world),
    (a + n)%nat = Z.to_nat retry ->
    exists r w' evs k,
      for_each (map Z.of_nat (seq a n)) attempt w = (r, w') /\
      trace w' = evs ++ trace w /\
      Forall P evs /\
      attempts evs = k /\
      spawns w' = (spawns w + k)%nat /\
      now w <= now w' /\
      (k <= n)%nat /\ ((0 < n)%nat -> (0 < k)%nat) /\
      effects evs =
        (if exhausted r && sleeps (Z.of_nat (a + pred k))
         then backoff_rounds k run nap else interleaved k run nap) /\
      (forall j, (j < pred k)%nat -> attempt_failed (proc E (spawns w + j))) /\
      match r with
      | Ret None =>
          k = n /\ forall j, (j < k)%nat -> attempt_failed (proc E (spawns w + j))
      | Ret (Some (Some text)) =>
          exists out err, proc E (spawns w + pred k) = Exited 0 out err /\ text = strip out
      | Ret (Some None) => False
      | Raise e => raised (proc E (spawns w + pred k)) e
      | Diverge => False
      end.
Proof.
  induction n as [|n IH]; intros a w Han.
  - exists (Ret None), w, [], 0%nat. cbn.
    destruct (sleeps _); repeat split; auto; try lia; intros; lia.
  - cbn [seq map for_each]. unfold bind at 1.
    destruct (attempt_spec (Z.of_nat a) w)
      as (w1 & evs1 & Hrun & Htr1 & Hev1 & Hat1 & Hsp1 & Hnow1 & Heff1).
    rewrite Hrun.
    destruct (attempt_verdict_cases (proc E (spawns w)))
      as [(Hfail & Hb & Hv) | [(out & err & Hproc & Hb & Hv) | (e1 & Hproc & Hb & Hv)]];
      rewrite Hv; rewrite Hb in Heff1; cbn [andb] in Heff1.
    + (* a failed attempt: on to the next one *)
      destruct (IH (S a) w1 ltac:(lia))
        as (r & w' & evs & k & Hloop & Htr & Hev & Hat & Hsp & Hnow & Hle & Hpos
            & Heff & Hpre & Hr).
      rewrite Hloop. exists r, w', (evs ++ evs1), (S k).
      split; [destruct r as [[v|]| |]; reflexivity|].
      rewrite Hsp1 in Hsp, Hpre, Hr.
      rewrite Htr, Htr1, app_assoc, attempts_app, effects_app, Hat, Hat1, Hsp.
      split; [reflexivity|]. split; [apply Forall_app; auto|].
      assert (Hall : forall j, (j < k)%nat -> attempt_failed (proc E (spawns w + j))).
      { intros j Hj. destruct j as [|j]; [now rewrite Nat.add_0_r|].
        replace (spawns w + S j)%nat with (S (spawns w) + j)%nat by lia.
        apply Hpre. lia. }
      assert (Hk : r <> Ret None -> (0 < k)%nat).
      { intros Hne. destruct n as [|n']; [|apply Hpos; lia].
        cbn in Hloop. unfold ret in Hloop. congruence. }
      repeat split; try lia.
      * rewrite Heff, Heff1. cbn [pred].
        destruct k as [|k'].
        -- (* this was the last attempt of the call *)
           assert (Hr0 : r = Ret None).
           { destruct r as [[v|]| |]; try reflexivity;
               exfalso; assert (0 < 0)%nat by (apply Hk; discriminate); lia. }
           rewrite Hr0, !Nat.add_0_r. cbn [exhausted andb].
           destruct (sleeps (Z.of_nat a)), (sleeps (Z.of_nat (S a))); reflexivity.
        -- rewrite (sleeps_between (Z.of_nat a)) by lia.
           replace (S a + pred (S k'))%nat with (a + S k')%nat by lia.
           destruct (exhausted r && sleeps (Z.of_nat (a + S k'))).
           ++ apply backoff_rounds_snoc.
           ++ apply interleaved_snoc. lia.
      * exact Hall.
      * destruct r as [[[text|]|]|e|]; auto.
        -- destruct Hr as (out & err & Hproc & Htext). exists out, err.
           split; [|exact Htext]. rewrite <- Hproc. f_equal.
           specialize (Hk ltac:(discriminate)). lia.
        -- destruct Hr as [Hkn Hr]. split; [lia|].
           intros j Hj. destruct j as [|j]; [now rewrite Nat.add_0_r|].
           replace (spawns w + S j)%nat with (S (spawns w) + j)%nat by lia.
           apply Hr. lia.
        -- replace (spawns w + pred (S k))%nat with (S (spawns w) + pred k)%nat;
             [exact Hr|]. specialize (Hk ltac:(discriminate)). lia.
    + (* success: the call returns *)
      eexists; exists w1, evs1, 1%nat. split; [reflexivity|].
      rewrite Hsp1, Nat.add_0_r. cbn [exhausted andb interleaved backoff_rounds].
      repeat split; auto; try lia; try (intros; lia).
      cbn [pred]. rewrite Nat.add_0_r. eauto.
    + (* the process raises: the exception leaves the call *)
      eexists; exists w1, evs1, 1%nat. split; [reflexivity|].
      rewrite Hsp1, Nat.add_0_r. cbn [exhausted andb interleaved backoff_rounds pred].
      rewrite Nat.add_0_r.
      repeat split; auto; try lia; try (intros; lia).
Qed.

End RetryLoop.

(** *** [run_command] of [deploy_app.py] *)

Section DeployAppRunCommand.
Variable E : env.
Variables (cmd : command) (timeout retry : Z) (cwd : option string).

Lemma deploy_attempt_spec (attempt : Z) (w : world) :
  exists w' evs,
    DeployApp.run_command_attempt E cmd timeout retry cwd attempt w
      = (attempt_verdict (proc E (spawns w)), w') /\
    trace w' = evs ++ trace w /\
    Forall (command_event cmd cwd timeout) evs /\
    attempts evs = 1%nat /\
    spawns w' = S (spawns w) /\
    now w <= now w' /\
    effects evs =
      (if attempt_failedb (proc E (spawns w)) && (attempt <? retry - 1)
       then [EvSleep 5; EvRun cmd cwd None timeout]
       else [EvRun cmd cwd None timeout]).
Proof.
  unfold DeployApp.run_command_attempt. run_script.
  destruct (proc E (spawns w)) as [rc out err| | |];
    cbn [attempt_verdict attempt_failedb].
  1: destruct (rc =? 0); cbn [negb andb].
  2, 3: destruct (attempt <? retry - 1); cbn [andb].
  all: eexists; eexists; split; [reflexivity|]; cbn [trace spawns now];
    split; [new_events|];
    repeat split; try reflexivity; try lia;
    repeat constructor.
Qed.

(** The complete account of one call of [run_command]: what it leaves in
    the trace, how many attempts it makes, and how its result follows from
    the way the processes ended. *)
Lemma deploy_run_command_spec (w : world) :
  exists r w' evs k,
    DeployApp.run_command E cmd timeout retry cwd w = (r, w') /\
    trace w' = evs ++ trace w /\
    Forall (command_event cmd cwd timeout) evs /\
    attempts evs = k /\
    spawns w' = (spawns w + k)%nat /\
    now w <= now w' /\
    (k <= Z.to_nat retry)%nat /\ (0 < retry -> (0 < k)%nat) /\
    effects evs = interleaved k (EvRun cmd cwd None timeout) (EvSleep 5) /\
    settled E (spawns w) k retry r.
Proof.
  unfold DeployApp.run_command, range, bind at 1.
  destruct (retry_loop E _ _ retry (fun i => i <? retry - 1) _ _
              deploy_attempt_spec ltac:(intros; now apply Z.ltb_lt)
              (Z.to_nat retry) 0%nat w eq_refl)
    as (r & w1 & evs & k & Hloop & Htr & Hev & Hat & Hsp & Hnow & Hle & Hpos
        & Heff & Hpre & Hr).
  rewrite Hloop.
  assert (Heff' : effects evs = interleaved k (EvRun cmd cwd None timeout) (EvSleep 5)).
  { rewrite Heff. cbn [Nat.add].
    destruct r as [[v|]| |]; cbn [exhausted andb]; try reflexivity.
    destruct Hr as [Hk _]. destruct k as [|k']; [now destruct (_ <? _)|].
    replace (Z.of_nat (pred (S k')) <? retry - 1) with false; [reflexivity|].
    symmetry. apply Z.ltb_ge. cbn [pred]. lia. }
  destruct r as [[[text|]|]|e|]; try contradiction.
  - exists (Ret (Some text)), w1, evs, k. split; [reflexivity|].
    assert (0 < k)%nat.
    { destruct (Z.to_nat retry) eqn:Hn; [|apply Hpos; lia].
      cbn in Hloop. unfold ret in Hloop. congruence. }
    repeat split; auto; lia.
  - run_script. destruct Hr as [Hk Hr].
    eexists; eexists; eexists (_ :: evs); exists k. split; [reflexivity|]. cbn [trace spawns now].
    rewrite Htr. cbn [app].
    repeat split; auto; try lia.
    constructor; [exact I|exact Hev].
  - exists (Raise e), w1, evs, k. split; [reflexivity|].
    assert (0 < k)%nat.
    { destruct (Z.to_nat retry) eqn:Hn; [|apply Hpos; lia].
      cbn in Hloop. unfold ret in Hloop. congruence. }
    repeat split; auto; lia.
Qed.

End DeployAppRunCommand.

(** *** [run_command] of [minikube_control.py] *)

Section MinikubeControlRunCommand.
Variable E : env.
Variables (cmd : list string) (timeout retry : Z).

Lemma minikube_attempt_spec (attempt : Z) (w : world) :
  exists w' evs,
    MinikubeControl.run_command_attempt E cmd timeout retry attempt w
      = (attempt_verdict (proc E (spawns w)), w') /\
    trace w' = evs ++ trace w /\
    Forall (command_event (Argv cmd) None timeout) evs /\
    attempts evs = 1%nat /\
    spawns w' = S (spawns w) /\
    now w <= now w' /\
    effects evs =
      (if attempt_failedb (proc E (spawns w)) && true
       then [EvSleep 5; EvRun (Argv cmd) None None timeout]
       else [EvRun (Argv cmd) None None timeout]).
Proof.
  unfold MinikubeControl.run_command_attempt. run_script.
  destruct (proc E (spawns w)) as [rc out err| | |];
    cbn [attempt_verdict attempt_failedb].
  1: destruct (rc =? 0); cbn [negb andb].
  all: eexists; eexists; split; [reflexivity|]; cbn [trace spawns now];
    split; [new_events|];
    repeat split; try reflexivity; try lia;
    repeat constructor.
Qed.

(** As for [deploy_app.py], except that every failed attempt is followed by
    a sleep: when the call gives up, the last thing it did was to sleep. *)
Lemma minikube_run_command_spec (w : world) :
  exists r w' evs k,
    MinikubeControl.run_command E cmd timeout retry w = (r, w') /\
    trace w' = evs ++ trace w /\
    Forall (command_event (Argv cmd) None timeout) evs /\
    attempts evs = k /\
    spawns w' = (spawns w + k)%nat /\
    now w <= now w' /\
    (k <= Z.to_nat retry)%nat /\ (0 < retry -> (0 < k)%nat) /\
    effects evs =
      (if exhausted r
       then backoff_rounds k (EvRun (Argv cmd) None None timeout) (EvSleep 5)
       else interleaved k (EvRun (Argv cmd) None None timeout) (EvSleep 5)) /\
    settled E (spawns w) k retry r.
Proof.
  unfold MinikubeControl.run_command, range, bind at 1.
  destruct (retry_loop E _ _ retry (fun _ => true) _ _
              minikube_attempt_spec ltac:(reflexivity)
              (Z.to_nat retry) 0%nat w eq_refl)
    as (r & w1 & evs & k & Hloop & Htr & Hev & Hat & Hsp & Hnow & Hle & Hpos
        & Heff & Hpre & Hr).
  rewrite Hloop. rewrite andb_true_r in Heff.
  destruct r as [[[text|]|]|e|]; try contradiction; cbn [exhausted] in Heff.
  - exists (Ret (Some text)), w1, evs, k. split; [reflexivity|].
    assert (0 < k)%nat.
    { destruct (Z.to_nat retry) eqn:Hn; [|apply Hpos; lia].
      cbn in Hloop. unfold ret in Hloop. congruence. }
    repeat split; auto; lia.
  - run_script. destruct Hr as [Hk Hr].
    eexists; eexists; eexists (_ :: evs); exists k. split; [reflexivity|].
    cbn [trace spawns now]. rewrite Htr. cbn [app].
    repeat split; auto; try lia.
    constructor; [exact I|exact Hev].
  - exists (Raise e), w1, evs, k. split; [reflexivity|].
    assert (0 < k)%nat.
    { destruct (Z.to_nat retry) eqn:Hn; [|apply Hpos; lia].
      cbn in Hloop. unfold ret in Hloop. congruence. }
    repeat split; auto; lia.
Qed.

End MinikubeControlRunCommand.

(** *** What a script leaves in the trace *)

Section Emits.
Variable P : event -> Prop.

Lemma emits_ret {A} (a : A) : emits P (ret a).
Proof. intros w. exists []. split; [reflexivity|constructor]. Qed.

Lemma emits_raise {A} (e : exn) : emits P (@raise A e).
Proof. intros w. exists []. split; [reflexivity|constructor]. Qed.

Lemma emits_diverge {A} : emits P (@diverge A).
Proof. intros w. exists []. split; [reflexivity|constructor]. Qed.

Lemma emits_bind {A B} (m : M A) (k : A -> M B) :
  emits P m -> (forall a, emits P (k a)) -> emits P (bind m k).
Proof.
  intros Hm Hk w. unfold bind.
  destruct (Hm w) as (evs1 & Htr1 & Hev1).
  destruct (m w) as [[a|e|] w1]; cbn [snd] in *.
  - destruct (Hk a w1) as (evs2 & Htr2 & Hev2).
    exists (evs2 ++ evs1). rewrite Htr2, Htr1, app_assoc.
    split; [reflexivity|now apply Forall_app].
  - now exists evs1.
  - now exists evs1.
Qed.

Lemma emits_try_except {A} (body handler : M A) (e : exn) :
  emits P body -> emits P handler -> emits P (try_except body e handler).
Proof.
  intros Hb Hh w. unfold try_except.
  destruct (Hb w) as (evs1 & Htr1 & Hev1).
  destruct (body w) as [[a|e'|] w1]; cbn [snd] in *; try now exists evs1.
  destruct (exn_eqb e' e); [|now exists evs1].
  destruct (Hh w1) as (evs2 & Htr2 & Hev2).
  exists (evs2 ++ evs1). rewrite Htr2, Htr1, app_assoc.
  split; [reflexivity|now apply Forall_app].
Qed.

Lemma emits_when (c : bool) (m : M unit) : emits P m -> emits P (when c m).
Proof. destruct c; [auto|intros _; apply emits_ret]. Qed.

Lemma emits_for_each {A R} (l : list A) (body : A -> M (option R)) :
  (forall x, emits P (body x)) -> emits P (for_each l body).
Proof.
  intros Hb. induction l as [|x l IH]; cbn [for_each]; [apply emits_ret|].
  apply emits_bind; [apply Hb|]. intros [v|]; [apply emits_ret|exact IH].
Qed.

Lemma emits_while_loop {S R} (fuel : nat) (cond : S -> M bool)
    (body : S -> M (flow S R)) (s : S) :
  (forall s, emits P (cond s)) -> (forall s, emits P (body s)) ->
  emits P (while_loop fuel cond body s).
Proof.
  intros Hc Hb. revert s.
  induction fuel as [|fuel IH]; intros s; cbn [while_loop]; [apply emits_diverge|].
  apply emits_bind; [apply Hc|]. intros [|]; [|apply emits_ret].
  apply emits_bind; [apply Hb|]. intros [s'|r]; [apply IH|apply emits_ret].
Qed.

Lemma emits_tell (ev : event) : P ev -> emits P (tell ev).
Proof. intros H w. exists [ev]. split; [reflexivity|now constructor]. Qed.

Hypothesis prints : forall line, P (EvPrint line).

Lemma emits_log (E : env) (level message : string) : emits P (log E level message).
Proof. intros w. eexists [_]. split; [reflexivity|]. constructor; [apply prints|constructor]. Qed.

Lemma emits_time_time : (forall t, P (EvTime t)) -> emits P time_time.
Proof. intros H w. exists [EvTime (now w)]. split; [reflexivity|]. constructor; auto. Qed.

Lemma emits_elapsed_seconds (E : env) (t : Z) :
  (forall t, P (EvTime t)) -> emits P (elapsed_seconds E t).
Proof. intros H w. exists [EvTime (now w)]. split; [reflexivity|]. constructor; auto. Qed.

Lemma emits_os_path_exists (E : env) (path : string) : emits P (os_path_exists E path).
Proof. intros w. now exists []. Qed.

Lemma emits_sleep (E : env) (seconds : Z) : P (EvSleep seconds) -> emits P (sleep E seconds).
Proof. intros H w. exists [EvSleep seconds]. split; [reflexivity|now constructor]. Qed.

Lemma emits_sleep_interruptible (E : env) (seconds : Z) :
  P (EvSleep seconds) -> emits P (sleep_interruptible E seconds).
Proof.
  intros H w. exists [EvSleep seconds]. unfold sleep_interruptible.
  split; [now destruct (interrupted E (steps w))|now constructor].
Qed.

Lemma emits_subprocess_run (E : env) cmd cwd input timeout :
  P (EvRun cmd cwd input timeout) -> emits P (subprocess_run E cmd cwd input timeout).
Proof.
  intros H w. exists [EvRun cmd cwd input timeout]. unfold subprocess_run.
  split; [now destruct (proc E (spawns w))|now constructor].
Qed.

Lemma emits_subprocess_Popen (E : env) args :
  P (EvPopen args) -> emits P (subprocess_Popen E args).
Proof.
  intros H w. exists [EvPopen args]. unfold subprocess_Popen.
  split; [now destruct (popen_fails E (steps w))|now constructor].
Qed.

Lemma emits_terminate (E : env) args : P (EvTerminate args) -> emits P (terminate E args).
Proof. intros H w. exists [EvTerminate args]. split; [reflexivity|now constructor]. Qed.

Lemma emits_os_environ_set (E : env) k v :
  P (EvSetenv k v) -> emits P (os_environ_set E k v).
Proof. intros H w. exists [EvSetenv k v]. split; [reflexivity|now constructor]. Qed.

Lemma emits_host_is_running (j : json) : emits P (host_is_running j).
Proof.
  destruct j; try apply emits_raise. unfold host_is_running.
  destruct (dict_get _ _ _); apply emits_ret.
Qed.

Lemma emits_recorded (f : func) (body : M bool) :
  P (EvCall f) -> (forall b, P (EvReturn f b)) -> emits P body ->
  emits P (recorded f body).
Proof.
  intros Hc Hr Hb. unfold recorded.
  apply emits_bind; [now apply emits_tell|]. intros _.
  apply emits_bind; [exact Hb|]. intros b.
  apply emits_bind; [now apply emits_tell|]. intros _. apply emits_ret.
Qed.

Lemma emits_deploy_run_command (E : env) cmd timeout retry cwd :
  P (EvRun cmd cwd None timeout) -> P (EvSleep 5) ->
  emits P (DeployApp.run_command E cmd timeout retry cwd).
Proof.
  intros Hrun Hnap w.
  destruct (deploy_run_command_spec E cmd timeout retry cwd w)
    as (r & w' & evs & k & Hcall & Htr & Hev & _).
  rewrite Hcall. exists evs. split; [exact Htr|].
  eapply Forall_impl; [|exact Hev].
  intros [c d i t|s| | | | | | |]; cbn; try contradiction; auto.
  - intros (-> & -> & -> & ->). exact Hrun.
  - intros ->. exact Hnap.
Qed.

Lemma emits_minikube_run_command (E : env) cmd timeout retry :
  P (EvRun (Argv cmd) None None timeout) -> P (EvSleep 5) ->
  emits P (MinikubeControl.run_command E cmd timeout retry).
Proof.
  intros Hrun Hnap w.
  destruct (minikube_run_command_spec E cmd timeout retry w)
    as (r & w' & evs & k & Hcall & Htr & Hev & _).
  rewrite Hcall. exists evs. split; [exact Htr|].
  eapply Forall_impl; [|exact Hev].
  intros [c d i t|s| | | | | | |]; cbn; try contradiction; auto.
  - intros (-> & -> & -> & ->). exact Hrun.
  - intros ->. exact Hnap.
Qed.

End Emits.

(** Deciding [emits] along the structure of a script. *)
Ltac emits_side := cbn; intros; try exact I; try reflexivity; try discriminate; auto.

Ltac emits_step :=
  lazymatch goal with
  | |- emits _ (bind _ _) => apply emits_bind; [|intros ?]
  | |- emits _ (ret _) => apply emits_ret
  | |- emits _ (raise _) => apply emits_raise
  | |- emits _ (log _ _ _) => apply emits_log; emits_side
  | |- emits _ (print _) => apply emits_tell; emits_side
  | |- emits _ (tell _) => apply emits_tell; emits_side
  | |- emits _ (when _ _) => apply emits_when
  | |- emits _ (sleep _ _) => apply emits_sleep; emits_side
  | |- emits _ (sleep_interruptible _ _) => apply emits_sleep_interruptible; emits_side
  | |- emits _ (try_except _ _ _) => apply emits_try_except
  | |- emits _ (for_each _ _) => apply emits_for_each; intros ?
  | |- emits _ (while_loop _ _ _ _) => apply emits_while_loop; intros ?
  | |- emits _ (DeployApp.run_command _ _ _ _ _) =>
      apply emits_deploy_run_command; emits_side
  | |- emits _ (MinikubeControl.run_command _ _ _ _) =>
      apply emits_minikube_run_command; emits_side
  | |- emits _ (subprocess_run _ _ _ _ _) => apply emits_subprocess_run; emits_side
  | |- emits _ (subprocess_Popen _ _) => apply emits_subprocess_Popen; emits_side
  | |- emits _ (terminate _ _) => apply emits_terminate; emits_side
  | |- emits _ (os_environ_set _ _ _) => apply emits_os_environ_set; emits_side
  | |- emits _ (os_path_exists _ _) => apply emits_os_path_exists
  | |- emits _ (elapsed_seconds _ _) => apply emits_elapsed_seconds; emits_side
  | |- emits _ time_time => apply emits_time_time; emits_side
  | |- emits _ (host_is_running _) => apply emits_host_is_running
  | |- emits _ (recorded _ _) => apply emits_recorded; [emits_side|emits_side|]
  | |- emits _ (DeployApp.create_namespace _ _) => unfold DeployApp.create_namespace
  | |- emits _ (DeployApp.monitoring_elapsed_lt _ _ _) =>
      unfold DeployApp.monitoring_elapsed_lt
  | |- emits _ (DeployApp.monitoring_poll _ _ _) => unfold DeployApp.monitoring_poll
  | |- emits _ (DeployApp.application_elapsed_lt _ _ _) =>
      unfold DeployApp.application_elapsed_lt
  | |- emits _ (DeployApp.application_poll _ _ _) => unfold DeployApp.application_poll
  | |- emits _ (DeployApp.forever_true _) => unfold DeployApp.forever_true
  | |- emits _ (DeployApp.sleep_one _ _) => unfold DeployApp.sleep_one
  | |- emits _ (MinikubeControl.start_elapsed_lt _ _ _) =>
      unfold MinikubeControl.start_elapsed_lt
  | |- emits _ (MinikubeControl.start_poll _ _ _) => unfold MinikubeControl.start_poll
  | |- emits _ (MinikubeControl.check_minikube_status _) =>
      unfold MinikubeControl.check_minikube_status
  | |- emits _ (if ?c then _ else _) => destruct c
  | |- emits _ (match ?x with _ => _ end) => destruct x
  end.

Ltac emits_auto := cbv zeta; repeat (emits_step; cbv zeta).

(** *** The recorded functions *)

Lemma recorded_spec (P : event -> Prop) (f : func) (body : M bool) :
  emits P body ->
  forall w, exists r w' evs,
    recorded f body w = (r, w') /\
    trace w' = verdict f r ++ evs ++ EvCall f :: trace w /\
    Forall P evs.
Proof.
  intros Hb w. unfold recorded, bind, tell, ret.
  destruct (Hb {| now := now w; spawns := spawns w; steps := steps w;
                  trace := EvCall f :: trace w |}) as (evs & Htr & Hev).
  destruct (body _) as [[b|e|] w1]; cbn [snd trace] in *;
    eexists; eexists; exists evs; (split; [reflexivity|]);
    cbn [trace verdict app]; rewrite Htr; auto.
Qed.

Section DeployAppStages.
Variable E : env.

Lemma deploy_check_spec :
  stage_spec Fn_check_minikube_status (DeployApp.check_minikube_status E).
Proof. intros w. unfold DeployApp.check_minikube_status. apply recorded_spec. emits_auto. Qed.

Lemma create_namespaces_spec :
  stage_spec Fn_create_namespaces (DeployApp.create_namespaces E).
Proof. intros w. unfold DeployApp.create_namespaces. apply recorded_spec. emits_auto. Qed.

Lemma build_react_app_spec :
  stage_spec Fn_build_react_app (DeployApp.build_react_app E).
Proof. intros w. unfold DeployApp.build_react_app. apply recorded_spec. emits_auto. Qed.

Lemma build_docker_image_spec :
  stage_spec Fn_build_docker_image (DeployApp.build_docker_image E).
Proof. intros w. unfold DeployApp.build_docker_image. apply recorded_spec. emits_auto. Qed.

Lemma deploy_monitoring_spec (fuel : nat) :
  stage_spec Fn_deploy_monitoring (DeployApp.deploy_monitoring E fuel).
Proof. intros w. unfold DeployApp.deploy_monitoring. apply recorded_spec. emits_auto. Qed.

Lemma deploy_application_spec (e : DeployApp.environment) (fuel : nat) :
  stage_spec Fn_deploy_application (DeployApp.deploy_application E e fuel).
Proof. intros w. unfold DeployApp.deploy_application. apply recorded_spec. emits_auto. Qed.

Lemma setup_port_forwarding_spec (fuel : nat) (w : world) :
  exists r w' evs,
    DeployApp.setup_port_forwarding E fuel w = (r, w') /\
    trace w' = evs ++ EvCall Fn_setup_port_forwarding :: trace w /\
    Forall forwarding evs.
Proof.
  unfold DeployApp.setup_port_forwarding, bind at 1, tell.
  match goal with
  | |- context [bind ?m ?k ?w0] =>
      assert (H : emits forwarding (bind m k)) by emits_auto;
      destruct (H w0) as (evs & Htr & Hev); destruct (bind m k w0) as [r w']
  end.
  exists r, w', evs. cbn [snd trace] in Htr. destruct r; auto.
Qed.

End DeployAppStages.

(** *** [main] of [deploy_app.py]

    [main] is run symbolically: each stage is replaced by what its
    specification says about it, and every way the run can go is a case. *)

Ltac main_reduce H :=
  cbv beta iota zeta delta [bind ret when log print tell timestamp negb andb] in H.

Ltac stage_call H spec :=
  let r := fresh "r" in let w := fresh "w" in let evs := fresh "evs" in
  let Hcall := fresh "Hcall" in let Htr := fresh "Htr" in let Hev := fresh "Hev" in
  destruct spec as (r & w & evs & Hcall & Htr & Hev);
  rewrite Hcall in H; clear Hcall;
  destruct r as [[|]|?|]; cbn [verdict app] in Htr; main_reduce H.

Ltac main_step H :=
  match type of H with
  | context [DeployApp.check_minikube_status ?E ?w] => stage_call H (deploy_check_spec E w)
  | context [DeployApp.create_namespaces ?E ?w] => stage_call H (create_namespaces_spec E w)
  | context [DeployApp.build_react_app ?E ?w] => stage_call H (build_react_app_spec E w)
  | context [DeployApp.build_docker_image ?E ?w] =>
      stage_call H (build_docker_image_spec E w)
  | context [DeployApp.deploy_monitoring ?E ?f ?w] =>
      stage_call H (deploy_monitoring_spec E f w)
  | context [DeployApp.deploy_application ?E ?e ?f ?w] =>
      stage_call H (deploy_application_spec E e f w)
  | context [DeployApp.setup_port_forwarding ?E ?f ?w] =>
      let r := fresh "r" in let w' := fresh "w" in let evs := fresh "evs" in
      let Hcall := fresh "Hcall" in let Htr := fresh "Htr" in let Hev := fresh "Hev" in
      destruct (setup_port_forwarding_spec E f w) as (r & w' & evs & Hcall & Htr & Hev);
      rewrite Hcall in H; clear Hcall; destruct r as [[]|?|]; main_reduce H
  | context [DeployApp.skip_build ?a] =>
      destruct (DeployApp.skip_build a) eqn:?; main_reduce H
  | context [DeployApp.skip_monitoring ?a] =>
      destruct (DeployApp.skip_monitoring a) eqn:?; main_reduce H
  | context [DeployApp.port_forward ?a] =>
      destruct (DeployApp.port_forward a) eqn:?; main_reduce H
  end.

Ltac run_main H :=
  unfold DeployApp.main in H; main_reduce H; repeat main_step H;
  injection H as <- <-; cbn [trace boot] in *;
  repeat match goal with
         | Htr : trace ?w = _ |- _ => try rewrite Htr in *; clear Htr
         end.

(** What an event found in the trace of a run can be. *)
Ltac split_in H :=
  repeat match type of H with
         | In _ (_ ++ _) => apply in_app_or in H; destruct H as [H|H]
         | In _ (_ :: _) => destruct H as [H|H]
         | In _ [] => destruct H
         end.

Ltac quiet_in H :=
  match type of H with
  | In ?ev ?evs =>
      match goal with
      | Hev : Forall _ evs |- _ =>
          let Hq := fresh "Hq" in
          pose proof (proj1 (Forall_forall _ _) Hev _ H) as Hq; cbn in Hq
      end
  end.

Ltac found H :=
  split_in H; try discriminate H; try contradiction;
  try (quiet_in H; try contradiction).

(** ... and that an event is in it. *)
Ltac is_there :=
  repeat first [left; reflexivity | apply in_or_app; right | right].

Ltac start_main E args fuel t0 H :=
  unfold failed, entered;
  let r := fresh "r" in let w := fresh "w'" in
  destruct (DeployApp.main E args fuel (boot t0)) as [r w] eqn:H; cbn [fst snd];
  run_main H.

(** C7.  When the cluster check at the start of [main] reports that the
    cluster is not running, [main] returns [False] before any stage: no
    stage function is entered, the only command ever run is the status
    query, and no background process is started. *)
Theorem prerequisite_not_met_aborts (E : env) (args : DeployApp.arguments)
    (fuel : nat) (t0 : Z) :
  let run := DeployApp.main E args fuel (boot t0) in
  failed Fn_check_minikube_status (trace (snd run)) ->
  fst run = Ret false /\
  (forall f, entered f (trace (snd run)) -> f = Fn_check_minikube_status) /\
  (forall cmd cwd input timeout,
     In (EvRun cmd cwd input timeout) (trace (snd run)) ->
     cmd = DeployApp.status_query) /\
  (forall argv, ~ In (EvPopen argv) (trace (snd run))).
Proof.
  intros run. subst run. start_main E args fuel t0 H.
  all: intros Hfail; found Hfail.
  split; [reflexivity|]. repeat split.
  - intros f Hin. found Hin. congruence.
  - intros cmd cwd input timeout Hin. found Hin. auto.
  - intros argv Hin. found Hin.
Qed.

Lemma prerequisite_not_met_aborts_witness :
  failed Fn_check_minikube_status
    (trace (snd (DeployApp.main always_failing deploy_and_forward 0 (boot 0)))) /\
  fst (DeployApp.main always_failing deploy_and_forward 0 (boot 0)) = Ret false.
Proof.
  assert (Hfail : failed Fn_check_minikube_status
            (trace (snd (DeployApp.main always_failing deploy_and_forward 0 (boot 0))))).
  { vm_compute. is_there. }
  split; [exact Hfail|].
  exact (proj1 (prerequisite_not_met_aborts always_failing deploy_and_forward 0 0 Hfail)).
Defined.






(** C10.  In every run of [main], port forwarding is set up only after a
    stage sequence without failure and when it was asked for: if the
    monitoring deploy or the application deploy failed,
    [setup_port_forwarding] is not entered and no forwarding process is
    started, whatever [--port-forward] says. *)
Theorem port_forward_only_on_success (E : env) (args : DeployApp.arguments)
    (fuel : nat) (t0 : Z) :
  let tr := trace (snd (DeployApp.main E args fuel (boot t0))) in
  (failed Fn_deploy_monitoring tr \/ failed Fn_deploy_application tr ->
     ~ entered Fn_setup_port_forwarding tr /\ forall argv, ~ In (EvPopen argv) tr) /\
  (entered Fn_setup_port_forwarding tr ->
     DeployApp.port_forward args = true /\ forall f, ~ failed f tr).
Proof.
  intros tr. subst tr. start_main E args fuel t0 H.
  all: split;
    [ intros [Hin|Hin]; found Hin;
      (split; [intros Hg; found Hg|intros argv Hg; found Hg])
    | intros Hin; found Hin;
      (split; [reflexivity|intros f Hf; found Hf]) ].
Qed.

Lemma port_forward_only_on_success_witness :
  let tr := trace (snd (DeployApp.main monitoring_missing deploy_and_forward 40 (boot 0))) in
  DeployApp.port_forward deploy_and_forward = true /\
  failed Fn_deploy_monitoring tr /\
  ~ entered Fn_setup_port_forwarding tr /\
  forall argv, ~ In (EvPopen argv) tr.
Proof.
  assert (Hfail : failed Fn_deploy_monitoring
            (trace (snd (DeployApp.main monitoring_missing deploy_and_forward 40 (boot 0)))))
    by (vm_compute; is_there).
  split; [reflexivity|]. split; [exact Hfail|].
  exact (proj1 (port_forward_only_on_success monitoring_missing deploy_and_forward 40 0)
           (or_introl Hfail)).
Defined.

(** *** Attempts and results of [run_command] *)

Example strip_example : strip "  ok  " = "ok".
Proof. reflexivity. Qed.

(** When every process fails, the call gives up after exactly [retry]
    attempts. *)
Lemma settled_all_failed (E : env) (s k : nat) (retry : Z) (r : result (option string)) :
  settled E s k retry r ->
  (k <= Z.to_nat retry)%nat ->
  (forall j, (j < Z.to_nat retry)%nat -> attempt_failed (proc E (s + j))) ->
  r = Ret None /\ k = Z.to_nat retry.
Proof.
  intros [Hpre Hr] Hk Hall.
  destruct r as [[text|]|e|]; try contradiction.
  - destruct Hr as (Hpos & out & err & Hproc & _).
    specialize (Hall (pred k) ltac:(lia)). rewrite Hproc in Hall. now cbn in Hall.
  - now destruct Hr.
  - destruct Hr as (Hpos & Hraised).
    specialize (Hall (pred k) ltac:(lia)). now apply raised_not_failed in Hraised.
Qed.

(** When process [K] is the first to succeed, the call returns its stripped
    output after exactly [K] attempts. *)
Lemma settled_first_success (E : env) (s k K : nat) (retry : Z)
    (r : result (option string)) (out err : string) :
  settled E s k retry r ->
  (1 <= K <= Z.to_nat retry)%nat ->
  (forall j, (j < pred K)%nat -> attempt_failed (proc E (s + j))) ->
  proc E (s + pred K) = Exited 0 out err ->
  r = Ret (Some (strip out)) /\ k = K.
Proof.
  intros [Hpre Hr] HK Hfail Hok.
  assert (Hnot : ~ attempt_failed (proc E (s + pred K))).
  { rewrite Hok. cbn. lia. }
  assert (Hle : (pred k <= pred K)%nat).
  { destruct (Nat.le_gt_cases (pred k) (pred K)) as [|Hlt]; [assumption|].
    exfalso. apply Hnot. apply Hpre. exact Hlt. }
  destruct r as [[text|]|e|]; try contradiction.
  - destruct Hr as (Hpos & out' & err' & Hproc & ->).
    destruct (Nat.eq_dec (pred k) (pred K)) as [Heq|Hne].
    + rewrite Heq, Hok in Hproc. injection Hproc as <- <-. split; [reflexivity|lia].
    + specialize (Hfail (pred k) ltac:(lia)). rewrite Hproc in Hfail. cbn in Hfail. lia.
  - destruct Hr as [-> Hall]. exfalso. apply Hnot. apply Hall. lia.
  - destruct Hr as (Hpos & Hraised).
    destruct (Nat.eq_dec (pred k) (pred K)) as [Heq|Hne].
    + rewrite Heq, Hok in Hraised. destruct Hraised as [[Habs _]|[Habs _]]; discriminate Habs.
    + specialize (Hfail (pred k) ltac:(lia)). now apply raised_not_failed in Hraised.
Qed.

(** The call raises [e] after [K] attempts exactly when attempt [K] is
    reached through failed attempts only and its process raises [e]. *)
Lemma settled_raises (E : env) (s k K : nat) (retry : Z) (r : result (option string))
    (e : exn) :
  settled E s k retry r ->
  (k <= Z.to_nat retry)%nat ->
  (r = Raise e /\ k = K <->
   (1 <= K <= Z.to_nat retry)%nat /\
   (forall j, (j < pred K)%nat -> attempt_failed (proc E (s + j))) /\
   raised (proc E (s + pred K)) e).
Proof.
  intros [Hpre Hr] Hk. split.
  - intros [-> <-]. destruct Hr as [Hpos Hraised]. repeat split; auto; lia.
  - intros (HK & Hfail & Hraised).
    assert (Hnot := raised_not_failed _ _ Hraised).
    assert (Hle : (pred k <= pred K)%nat).
    { destruct (Nat.le_gt_cases (pred k) (pred K)) as [|Hlt]; [assumption|].
      exfalso. apply Hnot. apply Hpre. exact Hlt. }
    destruct r as [[text|]|e'|]; try contradiction.
    + exfalso. destruct Hr as (Hpos & out & err & Hproc & _).
      destruct (Nat.eq_dec (pred k) (pred K)) as [Heq|Hne].
      * rewrite Heq in Hproc. rewrite Hproc in Hraised.
        destruct Hraised as [[Habs _]|[Habs _]]; discriminate Habs.
      * specialize (Hfail (pred k) ltac:(lia)). rewrite Hproc in Hfail. cbn in Hfail. lia.
    + exfalso. destruct Hr as [-> Hall]. apply Hnot. apply Hall. lia.
    + destruct Hr as (Hpos & Hraised').
      destruct (Nat.eq_dec (pred k) (pred K)) as [Heq|Hne].
      * rewrite Heq in Hraised'. rewrite (raised_functional _ _ _ Hraised Hraised').
        split; [reflexivity|lia].
      * exfalso. specialize (Hfail (pred k) ltac:(lia)).
        now apply raised_not_failed in Hraised'.
Qed.

(** When every process of the call ends in a way the retry logic handles,
    the call returns. *)
Lemma settled_returns (E : env) (s k : nat) (retry : Z) (r : result (option string)) :
  settled E s k retry r ->
  (k <= Z.to_nat retry)%nat ->
  (forall j, (j < Z.to_nat retry)%nat -> handled (proc E (s + j))) ->
  exists v, r = Ret v.
Proof.
  intros [_ Hr] Hk Hall.
  destruct r as [v|e|]; [now exists v| |contradiction].
  destruct Hr as (Hpos & Hraised). apply raised_not_handled in Hraised.
  exfalso. apply Hraised. apply Hall. lia.
Qed.



(** C4, as the claim has it, fails: a process that cannot be started makes
    [run_command] raise. *)
Lemma run_command_raises_on_spawn_failure :
  fst (DeployApp.run_command cannot_spawn (Argv ["kubectl"; "version"]) 60 1 None (boot 0))
    = Raise OSError /\
  fst (MinikubeControl.run_command cannot_spawn ["minikube"; "stop"] 60 3 (boot 0))
    = Raise OSError.
Proof. split; reflexivity. Qed.

(** So does a process whose output is not text: the exception of the
    decoding is not caught either. *)
Lemma run_command_raises_on_undecodable_output :
  fst (DeployApp.run_command undecodable (Argv ["kubectl"; "version"]) 60 1 None (boot 0))
    = Raise UnicodeDecodeError /\
  fst (MinikubeControl.run_command undecodable ["minikube"; "stop"] 60 3 (boot 0))
    = Raise UnicodeDecodeError.
Proof. split; reflexivity. Qed.

(** C4, amended.  In either script [run_command] always ends, and it raises
    [e] after [K] attempts exactly when attempt [K <= retry] is reached
    through failed attempts only (non-zero exit or timeout) and its process
    raises [e]: [OSError] when it cannot be started, [UnicodeDecodeError]
    when its output cannot be decoded.  The exception leaves [run_command]
    at that attempt, whatever attempts are left.  When every process of the
    call ends in an exit status or in a timeout, nothing is raised: the
    call returns a value, [None] for failure. *)
Theorem run_command_raises_exactly (E : env) (w : world) (cmd : command)
    (argv : list string) (timeout retry : Z) (cwd : option string) (e : exn) (K : nat) :
  let deploy := DeployApp.run_command E cmd timeout retry cwd w in
  let minikube := MinikubeControl.run_command E argv timeout retry w in
  let escapes :=
    (1 <= K <= Z.to_nat retry)%nat /\
    (forall j, (j < pred K)%nat -> attempt_failed (proc E (spawns w + j))) /\
    raised (proc E (spawns w + pred K)) e in
  (fst deploy <> Diverge /\ fst minikube <> Diverge) /\
  (fst deploy = Raise e /\
   attempts (trace (snd deploy)) = (attempts (trace w) + K)%nat <-> escapes) /\
  (fst minikube = Raise e /\
   attempts (trace (snd minikube)) = (attempts (trace w) + K)%nat <-> escapes) /\
  ((forall j, (j < Z.to_nat retry)%nat -> handled (proc E (spawns w + j))) ->
   (exists v, fst deploy = Ret v) /\ (exists v, fst minikube = Ret v)).
Proof.
  intros deploy minikube escapes. subst deploy minikube escapes.
  destruct (deploy_run_command_spec E cmd timeout retry cwd w)
    as (r1 & w1 & evs1 & k1 & Hcall1 & Htr1 & _ & Hat1 & _ & _ & Hle1 & _ & _ & Hset1).
  destruct (minikube_run_command_spec E argv timeout retry w)
    as (r2 & w2 & evs2 & k2 & Hcall2 & Htr2 & _ & Hat2 & _ & _ & Hle2 & _ & _ & Hset2).
  rewrite Hcall1, Hcall2. cbn [fst snd].
  rewrite Htr1, Htr2, !attempts_app, Hat1, Hat2.
  split; [|split; [|split]].
  - split; intros ->; [now destruct Hset1|now destruct Hset2].
  - rewrite <- (settled_raises _ _ _ K _ _ e Hset1 Hle1).
    split; intros [Hr Hk]; (split; [exact Hr|lia]).
  - rewrite <- (settled_raises _ _ _ K _ _ e Hset2 Hle2).
    split; intros [Hr Hk]; (split; [exact Hr|lia]).
  - intros Hall.
    destruct (settled_returns _ _ _ _ _ Hset1 Hle1 Hall) as [v1 ->].
    destruct (settled_returns _ _ _ _ _ Hset2 Hle2 Hall) as [v2 ->].
    split; eexists; reflexivity.
Qed.

Lemma run_command_raises_exactly_witness :
  (fst (DeployApp.run_command spawn_fails_on_retry (Argv ["kubectl"; "apply"]) 60 3 None
          (boot 0)) = Raise OSError /\
   attempts (trace (snd (DeployApp.run_command spawn_fails_on_retry
                           (Argv ["kubectl"; "apply"]) 60 3 None (boot 0)))) = 2%nat) /\
  (fst (MinikubeControl.run_command undecodable ["minikube"; "stop"] 60 3 (boot 0))
     = Raise UnicodeDecodeError /\
   attempts (trace (snd (MinikubeControl.run_command undecodable ["minikube"; "stop"] 60 3
                           (boot 0)))) = 1%nat) /\
  (exists v,
     fst (DeployApp.run_command always_failing (Argv ["kubectl"; "version"]) 60 3 None
            (boot 0)) = Ret v).
Proof.
  split; [|split].
  - refine (proj2 (proj1 (proj2 (run_command_raises_exactly spawn_fails_on_retry (boot 0)
                                   (Argv ["kubectl"; "apply"]) ["kubectl"; "apply"] 60 3 None
                                   OSError 2))) _).
    split; [cbn; lia|]. split.
    + intros [|j] Hj; cbn in *; [discriminate|lia].
    + left. split; reflexivity.
  - refine (proj2 (proj1 (proj2 (proj2 (run_command_raises_exactly undecodable (boot 0)
                                          (Argv ["minikube"; "stop"]) ["minikube"; "stop"]
                                          60 3 None UnicodeDecodeError 1)))) _).
    split; [cbn; lia|]. split.
    + intros j Hj. cbn in Hj. lia.
    + right. split; reflexivity.
  - refine (proj1 (proj2 (proj2 (proj2 (run_command_raises_exactly always_failing (boot 0)
                                          (Argv ["kubectl"; "version"]) ["minikube"; "stop"]
                                          60 3 None OSError 1))) _)).
    intros j _. exact I.
Defined.

(** *** The backoff sleep

    [run_command] of [deploy_app.py] sleeps only between attempts: the
    attempts and sleeps of a call are [k] attempts with one sleep of 5
    between any two consecutive ones, and none after the last. *)
Lemma deploy_backoff_only_between_attempts (E : env) (cmd : command) (timeout retry : Z)
    (cwd : option string) (w : world) :
  exists k evs,
    trace (snd (DeployApp.run_command E cmd timeout retry cwd w)) = evs ++ trace w /\
    effects evs = interleaved k (EvRun cmd cwd None timeout) (EvSleep 5).
Proof.
  destruct (deploy_run_command_spec E cmd timeout retry cwd w)
    as (r & w' & evs & k & Hcall & Htr & _ & _ & _ & _ & _ & _ & Heff & _).
  rewrite Hcall. now exists k, evs.
Qed.

(** [run_command] of [minikube_control.py] does not: when all [retry]
    attempts fail, each of them is followed by a sleep, the last one too. *)
Lemma minikube_backoff_after_every_failure (E : env) (argv : list string)
    (timeout retry : Z) (w : world) :
  1 <= retry ->
  (forall j, (j < Z.to_nat retry)%nat -> attempt_failed (proc E (spawns w + j))) ->
  exists w' evs,
    MinikubeControl.run_command E argv timeout retry w = (Ret None, w') /\
    trace w' = evs ++ trace w /\
    effects evs =
      backoff_rounds (Z.to_nat retry) (EvRun (Argv argv) None None timeout) (EvSleep 5) /\
    hd_error (effects evs) = Some (EvSleep 5).
Proof.
  intros Hretry Hall.
  destruct (minikube_run_command_spec E argv timeout retry w)
    as (r & w' & evs & k & Hcall & Htr & _ & _ & _ & _ & Hle & _ & Heff & Hset).
  destruct (settled_all_failed _ _ _ _ _ Hset Hle Hall) as [-> ->].
  exists w', evs. cbn [exhausted] in Heff. rewrite Heff.
  repeat split; auto.
  destruct (Z.to_nat retry) eqn:Hn; [lia|reflexivity].
Qed.

(** C2, in [minikube_control.py]: when [minikube stop] fails three times,
    the call sleeps after each attempt; the last thing it does before giving
    up is the sleep that follows the final attempt. *)
Theorem minikube_sleeps_after_final_attempt :
  let run := MinikubeControl.run_command always_failing ["minikube"; "stop"]
               MinikubeControl.MINIKUBE_WAIT_TIMEOUT MinikubeControl.default_retry (boot 0) in
  let attempt := EvRun (Argv ["minikube"; "stop"]) None None 60 in
  fst run = Ret None /\
  rev (effects (trace (snd run)))
    = [attempt; EvSleep 5; attempt; EvSleep 5; attempt; EvSleep 5].
Proof. split; reflexivity. Qed.

(** *** How often a status query is attempted *)

Lemma attempts_cons (ev : event) (tr : list event) :
  attempts (ev :: tr) = ((if is_run ev then 1 else 0) + attempts tr)%nat.
Proof. unfold attempts. cbn [filter]. now destruct (is_run ev). Qed.

Ltac call_run_command :=
  let r := fresh "r" in let w := fresh "w" in let evs := fresh "evs" in
  let k := fresh "k" in
  let Hcall := fresh "Hcall" in let Htr := fresh "Htr" in let Hev := fresh "Hev" in
  let Hat := fresh "Hat" in let Hsp := fresh "Hsp" in let Hnow := fresh "Hnow" in
  let Hle := fresh "Hle" in let Hpos := fresh "Hpos" in let Heff := fresh "Heff" in
  let Hset := fresh "Hset" in
  match goal with
  | |- context [DeployApp.run_command ?E ?c ?t ?n ?cwd ?w0] =>
      destruct (deploy_run_command_spec E c t n cwd w0)
        as (r & w & evs & k & Hcall & Htr & Hev & Hat & Hsp & Hnow & Hle & Hpos & Heff & Hset);
      rewrite Hcall; clear Hcall;
      specialize (Hpos eq_refl); cbn in Hle;
      destruct r as [[?|]|?|]; [| | |destruct Hset as [_ []]]
  | |- context [MinikubeControl.run_command ?E ?c ?t ?n ?w0] =>
      destruct (minikube_run_command_spec E c t n w0)
        as (r & w & evs & k & Hcall & Htr & Hev & Hat & Hsp & Hnow & Hle & Hpos & Heff & Hset);
      rewrite Hcall; clear Hcall;
      specialize (Hpos eq_refl); cbn in Hle;
      destruct r as [[?|]|?|]; [| | |destruct Hset as [_ []]]
  end;
  cbn [trace spawns now steps] in *.

Ltac branch :=
  match goal with
  | |- context [if ?b then _ else _] => destruct b eqn:?
  | |- context [match json_loads ?E ?s with _ => _ end] => destruct (json_loads E s) as [[]|]
  | |- context [match dict_get ?d ?k ?v with _ => _ end] => destruct (dict_get d k v)
  end.

Ltac count_attempts :=
  cbn [snd fst trace];
  repeat (rewrite ?attempts_cons, ?attempts_app; cbn [is_run];
          try match goal with
              | Htr : trace _ = _ |- _ => rewrite Htr; clear Htr
              end);
  lia.

Lemma deploy_check_attempts (E : env) (w : world) :
  attempts (trace (snd (DeployApp.check_minikube_status E w))) = S (attempts (trace w)).
Proof.
  unfold DeployApp.check_minikube_status. run_script.
  call_run_command; run_script; repeat (branch; run_script); count_attempts.
Qed.

Lemma application_poll_attempts (E : env) (start_time : Z) (w : world) :
  attempts (trace (snd (DeployApp.application_poll E start_time tt w)))
    = S (attempts (trace w)).
Proof.
  unfold DeployApp.application_poll. run_script.
  call_run_command; run_script; repeat (branch; run_script); count_attempts.
Qed.

Lemma monitoring_poll_attempts (E : env) (start_time : Z) (ready : bool * bool) (w : world) :
  (attempts (trace (snd (DeployApp.monitoring_poll E start_time ready w)))
   <= attempts (trace w) + (if fst ready then 0 else 1) + (if snd ready then 0 else 1))%nat.
Proof.
  unfold DeployApp.monitoring_poll. destruct ready as [[|] [|]]; run_script.
  all: repeat first [call_run_command; run_script | branch; run_script].
  all: count_attempts.
Qed.

Lemma minikube_check_attempts (E : env) (w : world) :
  (S (attempts (trace w))
   <= attempts (trace (snd (MinikubeControl.check_minikube_status E w)))
   <= attempts (trace w) + 3)%nat /\
  ((forall j, (j < 3)%nat -> attempt_failed (proc E (spawns w + j))) ->
   attempts (trace (snd (MinikubeControl.check_minikube_status E w)))
     = (attempts (trace w) + 3)%nat).
Proof.
  unfold MinikubeControl.check_minikube_status. run_script.
  match goal with
  | |- context [MinikubeControl.run_command ?E ?c ?t ?n ?w0] =>
      destruct (minikube_run_command_spec E c t n w0)
        as (r & w1 & evs & k & Hcall & Htr & _ & Hat & _ & _ & Hle & Hpos & _ & Hset);
      rewrite Hcall; clear Hcall; specialize (Hpos eq_refl); cbn in Hle
  end.
  split.
  - destruct r as [[?|]|?|]; [| | |destruct Hset as [_ []]];
      run_script; repeat (branch; run_script); count_attempts.
  - intros Hall.
    destruct (settled_all_failed _ _ _ _ _ Hset Hle Hall) as [-> ->].
    run_script. cbn [truthy].
    change (Z.to_nat MinikubeControl.default_retry) with 3%nat in Hat.
    count_attempts.
Qed.

(** C3, as the claim has it, fails: the status query of
    [minikube_control.py] goes through [run_command] with its default of
    three attempts, and a failing query is attempted three times. *)
Lemma minikube_status_query_is_retried :
  attempts (trace (snd (MinikubeControl.check_minikube_status always_failing (boot 0))))
    = 3%nat.
Proof. reflexivity. Qed.

(** C3, amended.  In [deploy_app.py] every status query is a single
    attempt: the cluster check makes exactly one, a poll for the
    application exactly one, a poll for the monitoring stack at most one
    for each service that is not ready yet.  In [minikube_control.py] the
    cluster check runs its query with the default of three attempts: it
    makes between one and three, and three when the query keeps failing. *)
Theorem status_query_attempts (E : env) (w : world) (start_time : Z) (ready : bool * bool) :
  attempts (trace (snd (DeployApp.check_minikube_status E w))) = S (attempts (trace w)) /\
  attempts (trace (snd (DeployApp.application_poll E start_time tt w)))
    = S (attempts (trace w)) /\
  (attempts (trace (snd (DeployApp.monitoring_poll E start_time ready w)))
   <= attempts (trace w) + (if fst ready then 0 else 1) + (if snd ready then 0 else 1))%nat /\
  (S (attempts (trace w))
   <= attempts (trace (snd (MinikubeControl.check_minikube_status E w)))
   <= attempts (trace w) + 3)%nat /\
  ((forall j, (j < 3)%nat -> attempt_failed (proc E (spawns w + j))) ->
   attempts (trace (snd (MinikubeControl.check_minikube_status E w)))
     = (attempts (trace w) + 3)%nat).
Proof.
  split; [apply deploy_check_attempts|].
  split; [apply application_poll_attempts|].
  split; [apply monitoring_poll_attempts|].
  apply minikube_check_attempts.
Qed.

Lemma status_query_attempts_witness :
  attempts (trace (snd (DeployApp.check_minikube_status always_failing (boot 0)))) = 1%nat /\
  attempts (trace (snd (MinikubeControl.check_minikube_status always_failing (boot 0))))
    = 3%nat.
Proof.
  destruct (status_query_attempts always_failing (boot 0) 0 (false, false))
    as (Hdeploy & _ & _ & _ & Hminikube).
  split; [exact Hdeploy|].
  apply Hminikube. intros j _. cbn. discriminate.
Defined.

(** *** Starting a cluster that runs *)

Lemma minikube_check_read_only (E : env) :
  emits read_only (MinikubeControl.check_minikube_status E).
Proof. emits_auto. Qed.

(** C9.  [start_minikube] is idempotent: in every state in which the status
    check reports the cluster running, it returns [True] and all it does is
    what the status check did, plus a log line: no [minikube start] is run
    and the environment is not touched. *)
Theorem start_is_idempotent (E : env) (fuel : nat) (w w1 : world) :
  MinikubeControl.check_minikube_status E w = (Ret true, w1) ->
  exists w' evs,
    MinikubeControl.start_minikube E fuel w = (Ret true, w') /\
    trace w' = evs ++ trace w /\
    Forall read_only evs /\
    (attempts evs <= 3)%nat.
Proof.
  intros Hcheck.
  destruct (minikube_check_read_only E w) as (evs & Htr & Hev).
  pose proof (proj1 (minikube_check_attempts E w)) as Hat.
  rewrite Hcheck in Htr, Hat. cbn [snd] in Htr, Hat.
  unfold MinikubeControl.start_minikube, bind at 1. rewrite Hcheck. run_script.
  eexists; eexists (EvPrint _ :: evs). split; [reflexivity|]. cbn [trace].
  rewrite Htr. split; [reflexivity|]. split; [constructor; [exact I|exact Hev]|].
  rewrite Htr, attempts_app in Hat. rewrite attempts_cons. cbn [is_run]. lia.
Qed.

Lemma start_is_idempotent_witness :
  exists w' evs,
    MinikubeControl.start_minikube all_well 0 (boot 0) = (Ret true, w') /\
    trace w' = evs ++ trace (boot 0) /\
    Forall read_only evs /\
    (attempts evs <= 3)%nat.
Proof.
  exact (start_is_idempotent all_well 0 (boot 0) _ eq_refl).
Defined.

(** *** Polling against a deadline *)

Lemma readings_app (a b : list event) : readings (a ++ b) = readings a ++ readings b.
Proof. apply flat_map_app. Qed.

Lemma readings_cons (ev : event) (tr : list event) :
  readings (ev :: tr) = match ev with EvTime t => [t] | _ => [] end ++ readings tr.
Proof. reflexivity. Qed.

Lemma latest_app (c : option Z) (newer older : list event) :
  latest c (newer ++ older) = latest (latest c older) newer.
Proof.
  unfold latest. rewrite readings_app.
  destruct (readings newer) as [|t ts]; reflexivity.
Qed.

Lemma ran_app (E : env) (s : nat) (c : option Z) (newer older : list event) :
  ran E s c (newer ++ older)
    = ran E s c older ++ ran E (s + attempts older) (latest c older) newer.
Proof.
  induction newer as [|ev newer IH]; cbn [app ran].
  - now rewrite app_nil_r.
  - rewrite IH, latest_app, attempts_app, <- app_assoc.
    do 2 f_equal. destruct ev; try reflexivity.
    do 3 f_equal. lia.
Qed.

Lemma ran_length (E : env) (s : nat) (c : option Z) (evs : list event) :
  List.length (ran E s c evs) = attempts evs.
Proof.
  induction evs as [|ev evs IH]; [reflexivity|].
  cbn [ran]. rewrite length_app, IH, attempts_cons.
  destruct ev; cbn; lia.
Qed.

(** What the events of one call of [run_command] show: its command, asked
    at the reading before the call, and no reading of the clock. *)
Lemma command_events_readings (cmd : command) (cwd : option string) (timeout : Z)
    (evs : list event) :
  Forall (command_event cmd cwd timeout) evs -> readings evs = [].
Proof.
  induction 1 as [|ev evs Hev _ IH]; [reflexivity|].
  destruct ev; cbn in *; try contradiction; exact IH.
Qed.

Lemma command_events_ran (E : env) (s : nat) (c : option Z) (cmd : command)
    (cwd : option string) (timeout : Z) (evs : list event) :
  Forall (command_event cmd cwd timeout) evs ->
  Forall (fun p => what p = cmd /\ asked_at p = c) (ran E s c evs).
Proof.
  induction 1 as [|ev evs Hev Hevs IH]; [constructor|].
  cbn [ran]. apply Forall_app. split; [exact IH|].
  destruct ev; cbn in Hev; try contradiction; try constructor; [|constructor].
  cbn. split; [apply Hev|].
  unfold latest. now rewrite (command_events_readings _ _ _ _ Hevs).
Qed.

Lemma command_events_ran_once (E : env) (s : nat) (c : option Z) (cmd : command)
    (cwd : option string) (timeout : Z) (evs : list event) :
  Forall (command_event cmd cwd timeout) evs ->
  attempts evs = 1%nat ->
  ran E s c evs = [{| what := cmd; asked_at := c; answer := proc E s |}].
Proof.
  induction 1 as [|ev evs Hev Hevs IH]; [discriminate|].
  rewrite attempts_cons. cbn [ran].
  destruct ev; cbn in Hev; try contradiction; cbn [is_run Nat.add]; intros Hat.
  - injection Hat as Hat.
    assert (Hnone : ran E s c evs = []).
    { apply length_zero_iff_nil. now rewrite ran_length. }
    destruct Hev as (-> & _). rewrite Hnone, Hat, Nat.add_0_r. cbn [app].
    unfold latest. now rewrite (command_events_readings _ _ _ _ Hevs).
  - rewrite (IH Hat). reflexivity.
  - rewrite (IH Hat). reflexivity.
Qed.

(** A status and what is raised, for either way a process can end. *)
Lemma raised_status (c : completion) (e : exn) : raised c e -> status_of c = None.
Proof. intros [[-> _]|[-> _]]; reflexivity. Qed.

(** One poll: [run_command] trying once.  It runs one process and returns
    its status, or raises what the process raised. *)
Lemma poll_once (E : env) (cmd : command) (timeout : Z) (w : world) :
  exists r w' evs,
    DeployApp.run_command E cmd timeout 1 None w = (r, w') /\
    trace w' = evs ++ trace w /\
    spawns w' = S (spawns w) /\
    now w <= now w' /\
    attempts evs = 1%nat /\
    readings evs = [] /\
    (forall s c, ran E s c evs = [{| what := cmd; asked_at := c; answer := proc E s |}]) /\
    match r with
    | Ret st => st = status_of (proc E (spawns w))
    | Raise e => raised (proc E (spawns w)) e
    | Diverge => False
    end.
Proof.
  destruct (deploy_run_command_spec E cmd timeout 1 None w)
    as (r & w' & evs & k & Hcall & Htr & Hev & Hat & Hsp & Hnow & Hle & Hpos & _ & Hset).
  specialize (Hpos eq_refl). cbn in Hle.
  assert (Hk : k = 1%nat) by lia. rewrite Hk in *. clear Hk.
  exists r, w', evs. split; [exact Hcall|].
  split; [exact Htr|]. split; [lia|]. split; [exact Hnow|]. split; [exact Hat|].
  split; [exact (command_events_readings _ _ _ _ Hev)|].
  split; [intros s c; exact (command_events_ran_once E s c _ _ _ _ Hev Hat)|].
  destruct Hset as [_ Hr]. cbn [pred] in Hr. rewrite Nat.add_0_r in Hr.
  destruct r as [[text|]|e|]; try contradiction.
  - destruct Hr as (_ & out & err & -> & ->). reflexivity.
  - destruct Hr as [_ Hall]. specialize (Hall 0%nat ltac:(lia)).
    rewrite Nat.add_0_r in Hall.
    destruct (proc E (spawns w)) as [rc out err| | |]; cbn in *; try contradiction; auto.
    destruct (rc =? 0) eqn:Hrc; [apply Z.eqb_eq in Hrc; contradiction|reflexivity].
  - apply Hr.
Qed.

Section PollingLoop.
Variable E : env.
Context {S : Type}.
Variables (start limit step : Z) (m : nat).
Variable cond : S -> M bool.
Variable body : S -> M (flow S bool).
Variable queries : list command.
Variable ready : list started -> bool.

(** What the loop-carried variables say about the processes seen. *)
Variable J : S -> list started -> Prop.

Hypothesis J_not_ready : forall s seen, J s seen -> ready seen = false.

(** The loop goes on while the clock reads less than the deadline ... *)
Hypothesis cond_spec :
  forall s w, cond s w = (Ret (now w - start <? limit), after_reading w).

(** ... and a turn polls, at least once and [m] times at most, then returns
    [True] on readiness or goes round again [step] ticks later at least. *)
Hypothesis body_spec :
  forall s w c seen0,
    J s seen0 ->
    exists r w' evs,
      body s w = (r, w') /\
      trace w' = evs ++ trace w /\
      spawns w' = (spawns w + attempts evs)%nat /\
      (0 < attempts evs <= m)%nat /\
      Forall (fun p => is_poll queries p = true /\ asked_at p = c)
        (ran E (spawns w) c evs) /\
      match r with
      | Ret (Next s') => now w + step <= now w' /\ J s' (seen0 ++ ran E (spawns w) c evs)
      | Ret (Return b) => b = true /\ ready (seen0 ++ ran E (spawns w) c evs) = true
      | Raise e =>
          raised (proc E (pred (spawns w'))) e /\
          ready (seen0 ++ ran E (spawns w) c evs) = false
      | Diverge => False
      end.

Lemma polling_loop (n : nat) :
  forall (fuel : nat) (s : S) (w : world) (c : option Z) (seen0 : list started),
    J s seen0 ->
    limit - (now w - start) <= Z.of_nat n * step ->
    (n < fuel)%nat ->
    exists r w' evs,
      while_loop fuel cond body s w = (r, w') /\
      trace w' = evs ++ trace w /\
      spawns w' = (spawns w + attempts evs)%nat /\
      (attempts evs <= m * n)%nat /\
      (now w - start < limit -> (0 < attempts evs)%nat) /\
      (exists t, hd_error (readings evs) = Some t) /\
      Forall (fun p => is_poll queries p = true /\
                       exists t, asked_at p = Some t /\ t - start < limit)
        (ran E (spawns w) c evs) /\
      match r with
      | Ret (Next _) =>
          ready (seen0 ++ ran E (spawns w) c evs) = false /\
          exists t, hd_error (readings evs) = Some t /\ limit <= t - start
      | Ret (Return b) => b = true /\ ready (seen0 ++ ran E (spawns w) c evs) = true
      | Raise e =>
          raised (proc E (pred (spawns w'))) e /\
          ready (seen0 ++ ran E (spawns w) c evs) = false
      | Diverge => False
      end.
Proof.
  assert (Hpast : forall (k : nat) s w c seen0,
            J s seen0 -> (now w - start <? limit) = false ->
            exists r w' evs,
              (Ret (Next s), after_reading w) = (r, w') /\
              trace w' = evs ++ trace w /\
              spawns w' = (spawns w + attempts evs)%nat /\
              (attempts evs <= m * k)%nat /\
              (now w - start < limit -> (0 < attempts evs)%nat) /\
              (exists t, hd_error (readings evs) = Some t) /\
              Forall (fun p => is_poll queries p = true /\
                               exists t, asked_at p = Some t /\ t - start < limit)
                (ran E (spawns w) c evs) /\
              match r with
              | Ret (Next _) =>
                  ready (seen0 ++ ran E (spawns w) c evs) = false /\
                  exists t, hd_error (readings evs) = Some t /\ limit <= t - start
              | Ret (Return b) => b = true /\ ready (seen0 ++ ran E (spawns w) c evs) = true
              | Raise e =>
                  raised (proc E (pred (spawns w'))) e /\
                  ready (seen0 ++ ran E (spawns w) c evs) = false
              | Diverge => False
              end).
  { intros k s w c seen0 HJ Hlt. apply Z.ltb_ge in Hlt.
    exists (Ret (Next s)), (after_reading w), [EvTime (now w)].
    split; [reflexivity|]. split; [reflexivity|].
    split; [cbn; lia|]. split; [cbn; lia|]. split; [lia|].
    split; [now exists (now w)|]. split; [constructor|].
    cbn [ran app]. rewrite app_nil_r.
    split; [now apply (J_not_ready s)|]. exists (now w). now split. }
  induction n as [|n IH]; intros fuel s w c seen0 HJ Hleft Hfuel;
    (destruct fuel as [|fuel]; [lia|]);
    cbn [while_loop]; unfold bind at 1; rewrite cond_spec;
    destruct (now w - start <? limit) eqn:Hlt; try (now apply Hpast);
    apply Z.ltb_lt in Hlt.
  - lia.
  - unfold bind.
    destruct (body_spec s (after_reading w) (Some (now w)) seen0 HJ)
      as (r & w1 & evs1 & Hbody & Htr1 & Hsp1 & Hat1 & Hran1 & Hr).
    rewrite Hbody. cbn [trace spawns now after_reading] in *.
    assert (Hsplit : forall evs2,
              ran E (spawns w) c (evs2 ++ evs1 ++ [EvTime (now w)])
              = ran E (spawns w) (Some (now w)) evs1
                ++ ran E (spawns w + attempts evs1) (latest (Some (now w)) evs1) evs2).
    { intros evs2. rewrite !ran_app, !latest_app, !attempts_app.
      change (latest c [EvTime (now w)]) with (Some (now w)).
      change (attempts [EvTime (now w)]) with 0%nat.
      change (ran E (spawns w) c [EvTime (now w)]) with (@nil started).
      rewrite !Nat.add_0_r. reflexivity. }
    assert (Hasked : Forall (fun p => is_poll queries p = true /\
                                      exists t, asked_at p = Some t /\ t - start < limit)
                       (ran E (spawns w) (Some (now w)) evs1)).
    { eapply Forall_impl; [|exact Hran1]. intros p [Hp Hc]. split; [exact Hp|].
      exists (now w). now split. }
    destruct r as [[s'|b]|e|]; [| | |contradiction].
    + destruct Hr as [Hstep HJ'].
      destruct (IH fuel s' w1 (latest (Some (now w)) evs1) _ HJ' ltac:(nia) ltac:(lia))
        as (r & w2 & evs2 & Hloop & Htr2 & Hsp2 & Hat2 & _ & (t2 & Ht2) & Hran2 & Hr).
      rewrite Hloop. exists r, w2, (evs2 ++ evs1 ++ [EvTime (now w)]).
      split; [destruct r as [[?|?]|?|]; reflexivity|].
      rewrite Htr2, Htr1, <- !app_assoc. split; [reflexivity|].
      rewrite !attempts_app. cbn [attempts filter is_run List.length].
      split; [lia|]. split; [lia|]. split; [lia|].
      rewrite Hsplit, readings_app.
      split; [exists t2; destruct (readings evs2); [discriminate|exact Ht2]|].
      rewrite Hsp1 in Hran2, Hr.
      split; [apply Forall_app; split; assumption|].
      rewrite app_assoc.
      destruct r as [[?|?]|?|]; auto.
      destruct Hr as [Hnot (t & Ht & Hover)]. split; [exact Hnot|].
      exists t. split; [|exact Hover]. destruct (readings evs2); [discriminate|exact Ht].
    + exists (Ret (Return b)), w1, (evs1 ++ [EvTime (now w)]).
      split; [reflexivity|]. rewrite Htr1, <- app_assoc. split; [reflexivity|].
      rewrite !attempts_app. cbn [attempts filter is_run List.length].
      split; [lia|]. split; [lia|]. split; [lia|].
      specialize (Hsplit []). cbn [app ran] in Hsplit. rewrite app_nil_r in Hsplit.
      rewrite Hsplit, readings_app.
      split; [exists (match readings evs1 with t :: _ => t | [] => now w end);
              destruct (readings evs1); reflexivity|].
      split; [exact Hasked|exact Hr].
    + exists (Raise e), w1, (evs1 ++ [EvTime (now w)]).
      split; [reflexivity|]. rewrite Htr1, <- app_assoc. split; [reflexivity|].
      rewrite !attempts_app. cbn [attempts filter is_run List.length].
      split; [lia|]. split; [lia|]. split; [lia|].
      specialize (Hsplit []). cbn [app ran] in Hsplit. rewrite app_nil_r in Hsplit.
      rewrite Hsplit, readings_app.
      split; [exists (match readings evs1 with t :: _ => t | [] => now w end);
              destruct (readings evs1); reflexivity|].
      split; [exact Hasked|exact Hr].
Qed.

End PollingLoop.

Lemma args_eqb_refl (a : list string) : args_eqb a a = true.
Proof. induction a as [|x a IH]; [reflexivity|]. cbn. now rewrite String.eqb_refl. Qed.

Lemma command_eqb_refl (a : command) : command_eqb a a = true.
Proof. destruct a; cbn; [apply args_eqb_refl|apply String.eqb_refl]. Qed.

Lemma args_eqb_eq (a b : list string) : args_eqb a b = true <-> a = b.
Proof.
  revert b. induction a as [|x a IH]; intros [|y b]; cbn; try (split; congruence).
  rewrite andb_true_iff, String.eqb_eq, IH. split; [intros [-> ->]; reflexivity|].
  intros H. injection H as -> ->. now split.
Qed.

Lemma command_eqb_eq (a b : command) : command_eqb a b = true <-> a = b.
Proof.
  destruct a as [x|x], b as [y|y]; cbn; try (split; congruence).
  - rewrite args_eqb_eq. split; congruence.
  - rewrite String.eqb_eq. split; congruence.
Qed.

(** Simplifying what has been seen after a turn of a loop. *)
Ltac seen_simpl :=
  repeat first
    [ rewrite existsb_app
    | rewrite app_nil_r
    | progress cbn [ran app existsb attempts filter is_run List.length
                    readings flat_map latest] ].

Ltac answer_simpl :=
  unfold answered; cbn [what asked_at answer];
  rewrite ?command_eqb_refl;
  cbn [orb andb].

Ltac one_poll :=
  constructor;
  [split; [unfold is_poll; cbn [existsb what];
           rewrite command_eqb_refl, ?orb_true_r; reflexivity
          |reflexivity]|].

Section ApplicationLoop.
Variable E : env.
Variable start_time : Z.

Lemma application_poll_turn (u : unit) (w : world) (c : option Z) (seen0 : list started) :
  application_seen_ready seen0 = false ->
  exists r w' evs,
    DeployApp.application_poll E start_time u w = (r, w') /\
    trace w' = evs ++ trace w /\
    spawns w' = (spawns w + attempts evs)%nat /\
    (0 < attempts evs <= 1)%nat /\
    Forall (fun p => is_poll [DeployApp.application_query] p = true /\ asked_at p = c)
      (ran E (spawns w) c evs) /\
    match r with
    | Ret (Next _) =>
        now w + 10 * Z.pos (hz E) <= now w' /\
        application_seen_ready (seen0 ++ ran E (spawns w) c evs) = false
    | Ret (Return b) =>
        b = true /\ application_seen_ready (seen0 ++ ran E (spawns w) c evs) = true
    | Raise e =>
        raised (proc E (pred (spawns w'))) e /\
        application_seen_ready (seen0 ++ ran E (spawns w) c evs) = false
    | Diverge => False
    end.
Proof.
  intros Hnot. unfold DeployApp.application_poll, application_seen_ready in *.
  change DeployApp.default_retry with 1. run_script.
  destruct (poll_once E DeployApp.application_query 10 w)
    as (r & w1 & evs & Hcall & Htr & Hsp & Hnow & Hat & Hread & Hran & Hr).
  rewrite Hcall.
  destruct r as [st|e|]; [| |contradiction].
  2: { exists (Raise e), w1, evs. split; [reflexivity|]. split; [exact Htr|].
       rewrite Hat, Hran, Hsp. split; [lia|]. split; [lia|].
       split; [one_poll; constructor|].
       cbn [pred]. split; [exact Hr|]. seen_simpl. rewrite Hnot. answer_simpl.
       rewrite (raised_status _ _ Hr). reflexivity. }
  subst st.
  destruct (DeployApp.application_ready (status_of (proc E (spawns w)))) eqn:Hready;
    run_script.
  - eexists; eexists; eexists (_ :: evs). split; [reflexivity|]. cbn [trace spawns now].
    rewrite Htr. split; [reflexivity|]. rewrite attempts_cons, Hat. cbn [is_run].
    split; [lia|]. split; [lia|]. cbn [ran]. rewrite app_nil_r, Hran.
    split; [one_poll; constructor|].
    split; [reflexivity|]. seen_simpl. rewrite Hnot. answer_simpl.
    rewrite Hready. reflexivity.
  - eexists; eexists; eexists (_ :: _ :: _ :: evs). split; [reflexivity|].
    cbn [trace spawns now]. rewrite Htr. split; [reflexivity|].
    rewrite !attempts_cons, Hat. cbn [is_run].
    split; [lia|]. split; [lia|]. cbn [ran]. rewrite !app_nil_r, Hran.
    split; [one_poll; constructor|].
    split; [lia|]. seen_simpl. rewrite Hnot. answer_simpl.
    rewrite Hready. reflexivity.
Qed.

Lemma application_loop (fuel : nat) (w : world) (c : option Z) (seen0 : list started) :
  application_seen_ready seen0 = false ->
  start_time = now w ->
  (31 <= fuel)%nat ->
  let limit := DeployApp.DEPLOY_TIMEOUT * Z.pos (hz E) in
  exists r w' evs,
    while_loop fuel (DeployApp.application_elapsed_lt E start_time)
      (DeployApp.application_poll E start_time) tt w = (r, w') /\
    trace w' = evs ++ trace w /\
    spawns w' = (spawns w + attempts evs)%nat /\
    (attempts evs <= 30)%nat /\
    (0 < attempts evs)%nat /\
    (exists t, hd_error (readings evs) = Some t) /\
    Forall (fun p => is_poll [DeployApp.application_query] p = true /\
                     exists t, asked_at p = Some t /\ t - start_time < limit)
      (ran E (spawns w) c evs) /\
    match r with
    | Ret (Next _) =>
        application_seen_ready (seen0 ++ ran E (spawns w) c evs) = false /\
        exists t, hd_error (readings evs) = Some t /\ limit <= t - start_time
    | Ret (Return b) =>
        b = true /\ application_seen_ready (seen0 ++ ran E (spawns w) c evs) = true
    | Raise e =>
        raised (proc E (pred (spawns w'))) e /\
        application_seen_ready (seen0 ++ ran E (spawns w) c evs) = false
    | Diverge => False
    end.
Proof.
  intros Hnot Hstart Hfuel limit.
  assert (Hleft : limit - (now w - start_time) <= Z.of_nat 30 * (10 * Z.pos (hz E))).
  { subst limit. unfold DeployApp.DEPLOY_TIMEOUT. change (Z.of_nat 30) with 30. lia. }
  assert (Hlt : now w - start_time < limit).
  { subst limit. unfold DeployApp.DEPLOY_TIMEOUT. lia. }
  destruct (polling_loop E start_time limit (10 * Z.pos (hz E)) 1
              (DeployApp.application_elapsed_lt E start_time)
              (DeployApp.application_poll E start_time)
              [DeployApp.application_query] application_seen_ready
              (fun _ seen => application_seen_ready seen = false)
              ltac:(auto) ltac:(reflexivity)
              ltac:(intros; now apply application_poll_turn)
              30%nat fuel tt w c seen0 Hnot Hleft ltac:(lia))
    as (r & w' & evs & Hloop & Htr & Hsp & Hat & Hpos & Hread & Hran & Hr).
  exists r, w', evs.
  split; [exact Hloop|]. split; [exact Htr|]. split; [exact Hsp|]. split; [lia|].
  split; [now apply Hpos|]. split; [exact Hread|]. split; [exact Hran|exact Hr].
Qed.

End ApplicationLoop.

(** The events between two traces, the older being a suffix of the newer,
    when calls have left stretches of events in between. *)
Ltac events_since l t :=
  lazymatch l with
  | t => constr:(@nil event)
  | ?a ++ t => constr:(a)
  | ?x :: ?l' => let p := events_since l' t in constr:(x :: p)
  | ?a ++ ?l' => let p := events_since l' t in constr:(a ++ p)
  end.

Ltac since :=
  lazymatch goal with
  | |- ?l = ?e ++ ?t =>
      is_evar e; let p := events_since l t in unify e p;
      repeat (progress (cbn [app]; rewrite <- ?app_assoc)); reflexivity
  end.

Lemma latest_quiet (c : option Z) (evs : list event) : readings evs = [] -> latest c evs = c.
Proof. unfold latest. now intros ->. Qed.

Lemma grafana_not_prometheus :
  command_eqb DeployApp.grafana_query DeployApp.prometheus_query = false.
Proof. reflexivity. Qed.

Lemma prometheus_not_grafana :
  command_eqb DeployApp.prometheus_query DeployApp.grafana_query = false.
Proof. reflexivity. Qed.

(** What a stretch of events shows, from what its calls have left. *)
Ltac trace_facts :=
  unfold latest;
  repeat first
    [ rewrite ran_app
    | rewrite attempts_app
    | rewrite readings_app
    | rewrite readings_cons
    | rewrite attempts_cons
    | rewrite existsb_app
    | match goal with H : forall s c, ran _ s c ?evs = _ |- _ => rewrite H end
    | match goal with H : attempts ?evs = _ |- context [attempts ?evs] => rewrite H end
    | match goal with H : readings ?evs = _ |- context [readings ?evs] => rewrite H end
    | progress cbn [ran app is_run Nat.add existsb pred fst snd]
    | progress unfold latest
    | rewrite app_nil_r
    | rewrite Nat.add_0_r
    | rewrite Nat.add_1_r ].

Section MonitoringLoop.
Variable E : env.
Variable start_time : Z.

Lemma flags_track_not_ready (ready : bool * bool) (seen : list started) :
  flags_track ready seen -> monitoring_seen_ready seen = false.
Proof. intros (Hp & Hg & Hboth). unfold monitoring_seen_ready. now rewrite <- Hp, <- Hg. Qed.

Ltac poll :=
  let r := fresh "r" in let w := fresh "w" in let evs := fresh "evs" in
  let Hcall := fresh "Hcall" in let Htr := fresh "Htr" in let Hsp := fresh "Hsp" in
  let Hnow := fresh "Hnow" in let Hat := fresh "Hat" in let Hread := fresh "Hread" in
  let Hran := fresh "Hran" in let Hr := fresh "Hr" in
  match goal with
  | |- context [DeployApp.run_command ?E0 ?q ?t 1 None ?w0] =>
      destruct (poll_once E0 q t w0)
        as (r & w & evs & Hcall & Htr & Hsp & Hnow & Hat & Hread & Hran & Hr);
      rewrite Hcall; clear Hcall;
      destruct r as [?|?|]; [subst| |contradiction];
      cbn [trace spawns now steps] in *
  end.

Lemma monitoring_poll_turn (ready : bool * bool) (w : world) (c : option Z)
    (seen0 : list started) :
  flags_track ready seen0 ->
  exists r w' evs,
    DeployApp.monitoring_poll E start_time ready w = (r, w') /\
    trace w' = evs ++ trace w /\
    spawns w' = (spawns w + attempts evs)%nat /\
    (0 < attempts evs <= 2)%nat /\
    Forall (fun p => is_poll [DeployApp.prometheus_query; DeployApp.grafana_query] p = true /\
                     asked_at p = c)
      (ran E (spawns w) c evs) /\
    match r with
    | Ret (Next ready') =>
        now w + 10 * Z.pos (hz E) <= now w' /\
        flags_track ready' (seen0 ++ ran E (spawns w) c evs)
    | Ret (Return b) =>
        b = true /\ monitoring_seen_ready (seen0 ++ ran E (spawns w) c evs) = true
    | Raise e =>
        raised (proc E (pred (spawns w'))) e /\
        monitoring_seen_ready (seen0 ++ ran E (spawns w) c evs) = false
    | Diverge => False
    end.
Proof.
  intros (Hp & Hg & Hboth). unfold DeployApp.monitoring_poll.
  change DeployApp.default_retry with 1.
  destruct ready as [[|] [|]]; cbn [fst snd andb] in *; try discriminate; run_script.
  all: repeat first [poll; run_script | branch; run_script].
  all: eexists; eexists; eexists; (split; [reflexivity|]); cbn [trace spawns now].
  all: repeat match goal with
              | Htr : trace _ = _ |- _ => rewrite Htr; clear Htr
              end.
  all: split; [since|].
  all: repeat match goal with
              | H : spawns _ = S _ |- _ => try rewrite H in *; clear H
              end.
  all: unfold flags_track, monitoring_seen_ready; trace_facts.
  all: rewrite <- ?Hp, <- ?Hg; unfold answered; cbn [what answer asked_at];
    rewrite ?command_eqb_refl, ?grafana_not_prometheus, ?prometheus_not_grafana;
    repeat match goal with
           | H : DeployApp.reports_running _ = _ |- _ => rewrite H
           | H : raised ?c _ |- context [status_of ?c] => rewrite (raised_status _ _ H)
           end;
    change (DeployApp.reports_running None) with false;
    cbn [andb orb].
  all: repeat split; try reflexivity; try lia; try assumption;
    repeat (constructor; [split; reflexivity|]); try constructor.
Qed.

Lemma monitoring_loop (fuel : nat) (w : world) (c : option Z) (seen0 : list started) :
  flags_track (false, false) seen0 ->
  start_time = now w ->
  (31 <= fuel)%nat ->
  let limit := DeployApp.DEPLOY_TIMEOUT * Z.pos (hz E) in
  exists r w' evs,
    while_loop fuel (DeployApp.monitoring_elapsed_lt E start_time)
      (DeployApp.monitoring_poll E start_time) (false, false) w = (r, w') /\
    trace w' = evs ++ trace w /\
    spawns w' = (spawns w + attempts evs)%nat /\
    (attempts evs <= 60)%nat /\
    (0 < attempts evs)%nat /\
    (exists t, hd_error (readings evs) = Some t) /\
    Forall (fun p => is_poll [DeployApp.prometheus_query; DeployApp.grafana_query] p = true /\
                     exists t, asked_at p = Some t /\ t - start_time < limit)
      (ran E (spawns w) c evs) /\
    match r with
    | Ret (Next _) =>
        monitoring_seen_ready (seen0 ++ ran E (spawns w) c evs) = false /\
        exists t, hd_error (readings evs) = Some t /\ limit <= t - start_time
    | Ret (Return b) =>
        b = true /\ monitoring_seen_ready (seen0 ++ ran E (spawns w) c evs) = true
    | Raise e =>
        raised (proc E (pred (spawns w'))) e /\
        monitoring_seen_ready (seen0 ++ ran E (spawns w) c evs) = false
    | Diverge => False
    end.
Proof.
  intros Htrack Hstart Hfuel limit.
  assert (Hleft : limit - (now w - start_time) <= Z.of_nat 30 * (10 * Z.pos (hz E))).
  { subst limit. unfold DeployApp.DEPLOY_TIMEOUT. change (Z.of_nat 30) with 30. lia. }
  assert (Hlt : now w - start_time < limit).
  { subst limit. unfold DeployApp.DEPLOY_TIMEOUT. lia. }
  destruct (polling_loop E start_time limit (10 * Z.pos (hz E)) 2
              (DeployApp.monitoring_elapsed_lt E start_time)
              (DeployApp.monitoring_poll E start_time)
              [DeployApp.prometheus_query; DeployApp.grafana_query] monitoring_seen_ready
              flags_track
              flags_track_not_ready ltac:(reflexivity)
              ltac:(intros; now apply monitoring_poll_turn)
              30%nat fuel (false, false) w c seen0 Htrack Hleft ltac:(lia))
    as (r & w' & evs & Hloop & Htr & Hsp & Hat & Hpos & Hread & Hran & Hr).
  exists r, w', evs.
  split; [exact Hloop|]. split; [exact Htr|]. split; [exact Hsp|]. split; [lia|].
  split; [now apply Hpos|]. split; [exact Hread|]. split; [exact Hran|exact Hr].
Qed.

End MonitoringLoop.

(** *** The deploy functions and their readiness loops *)

Lemma ran_none (E : env) (s : nat) (c : option Z) (evs : list event) :
  attempts evs = 0%nat -> ran E s c evs = [].
Proof. intros H. apply length_zero_iff_nil. now rewrite ran_length. Qed.

(** Every process seen ended as the world has it. *)
Lemma ran_answers (E : env) (s : nat) (c : option Z) (evs : list event)
    (P : started -> Prop) :
  (forall n cmd t, P {| what := cmd; asked_at := t; answer := proc E n |}) ->
  Forall P (ran E s c evs).
Proof.
  intros HP. induction evs as [|ev evs IH]; [constructor|].
  cbn [ran]. apply Forall_app. split; [exact IH|].
  destruct ev; constructor; [apply HP|constructor].
Qed.

Lemma existsb_none {A} (f : A -> bool) (l : list A) :
  Forall (fun x => f x = false) l -> existsb f l = false.
Proof. induction 1 as [|x l Hx _ IH]; [reflexivity|]. cbn. now rewrite Hx, IH. Qed.

Section Outcome.
Variable E : env.
Variable queries : list command.
Variable ready : list started -> bool.
Variable most : nat.
Variable w : world.
Variable run : result bool * world.

(** A call that ends before its loop: it has not polled, and returns
    [False] or raises. *)
Lemma ends_before_polling (evs : list event) :
  trace (snd run) = evs ++ trace w ->
  (attempts evs <= most)%nat ->
  Forall (fun p => is_poll queries p = false) (ran E (spawns w) None evs) ->
  ready (ran E (spawns w) None evs) = false ->
  (fst run = Ret false \/
   exists e, fst run = Raise e /\ raised (proc E (pred (spawns (snd run)))) e) ->
  ((forall n p, path_exists E n p = true) ->
   (forall n, exists out err, proc E n = Exited 0 out err) -> False) ->
  polls_until_deadline E queries ready most w run.
Proof.
  intros Htr Hat Hnone Hready Hres Hblocked.
  exists evs. split; [exact Htr|]. cbv beta zeta.
  assert (Hno : existsb (is_poll queries) (ran E (spawns w) None evs) = false)
    by now apply existsb_none.
  split; [destruct Hres as [->|(e & -> & _)]; discriminate|].
  split; [exact Hat|].
  split.
  { intros p Hin Hp. rewrite Forall_forall in Hnone. rewrite (Hnone p Hin) in Hp.
    discriminate. }
  split.
  { rewrite Hready. destruct Hres as [->|(e & -> & _)]; split; discriminate. }
  split; [intros _ Habs; rewrite Hno in Habs; discriminate|].
  split.
  { intros e He. destruct Hres as [Hres|(e' & Hres & Hraised)]; rewrite Hres in He;
      [discriminate|]. injection He as <-. exact Hraised. }
  split.
  { intros Hall _. destruct Hres as [Hres|(e & _ & Hraised)]; [exact Hres|].
    apply raised_not_handled in Hraised. exfalso. apply Hraised, Hall. }
  intros Hpaths Hprocs. exfalso. now apply Hblocked.
Qed.

(** A call that reaches its loop: before it, it has read the clock once,
    for [start_time]; after it, it does not run or read anything. *)
Lemma ends_after_polling {S : Type} (pre polled post : list event) (start_time : Z)
    (bound : nat) (r : result (flow S bool)) :
  let limit := DeployApp.DEPLOY_TIMEOUT * Z.pos (hz E) in
  let seen := ran E (spawns w) None pre
              ++ ran E (spawns w + attempts pre) (Some start_time) polled in
  trace (snd run) = (post ++ polled ++ EvTime start_time :: pre) ++ trace w ->
  readings pre = [] -> readings post = [] -> attempts post = 0%nat ->
  (attempts pre + bound <= most)%nat ->
  Forall (fun p => is_poll queries p = false) (ran E (spawns w) None pre) ->
  spawns (snd run) = (spawns w + attempts pre + attempts polled)%nat ->
  (attempts polled <= bound)%nat ->
  (0 < attempts polled)%nat ->
  Forall (fun p => is_poll queries p = true /\
                   exists t, asked_at p = Some t /\ t - start_time < limit)
    (ran E (spawns w + attempts pre) (Some start_time) polled) ->
  match r with
  | Ret (Next _) =>
      fst run = Ret false /\ ready seen = false /\
      exists t, hd_error (readings polled) = Some t /\ limit <= t - start_time
  | Ret (Return b) => fst run = Ret true /\ ready seen = true
  | Raise e =>
      fst run = Raise e /\ raised (proc E (pred (spawns (snd run)))) e /\
      ready seen = false
  | Diverge => False
  end ->
  polls_until_deadline E queries ready most w run.
Proof.
  intros limit seen Htr Hpre Hpost Hquiet Hmost Hnone Hsp Hbound Hpos Hpolls Hr.
  exists (post ++ polled ++ EvTime start_time :: pre). split; [exact Htr|]. cbv beta zeta.
  assert (Hseen : ran E (spawns w) None (post ++ polled ++ EvTime start_time :: pre) = seen).
  { rewrite !ran_app, (ran_none _ _ _ post Hquiet), app_nil_r.
    cbn [ran]. rewrite app_nil_r, attempts_cons. cbn [is_run Nat.add].
    unfold latest. rewrite readings_cons. reflexivity. }
  assert (Hread : readings (post ++ polled ++ EvTime start_time :: pre)
                  = readings polled ++ [start_time]).
  { rewrite !readings_app, readings_cons, Hpre, Hpost. reflexivity. }
  assert (Hfirst : forall t, last (readings (post ++ polled ++ EvTime start_time :: pre)) t
                             = start_time).
  { intros t. rewrite Hread. apply last_last. }
  assert (Hat : attempts (post ++ polled ++ EvTime start_time :: pre)
                = (attempts polled + attempts pre)%nat).
  { rewrite !attempts_app, attempts_cons, Hquiet. cbn [is_run]. lia. }
  assert (Hdid : existsb (is_poll queries) seen = true).
  { subst seen. rewrite existsb_app.
    destruct (ran E (spawns w + attempts pre) (Some start_time) polled) as [|p l] eqn:Hl.
    - apply (f_equal (@List.length started)) in Hl. rewrite ran_length in Hl.
      cbn in Hl. lia.
    - inversion Hpolls as [|? ? [Hp _] _]; subst. cbn [existsb]. rewrite Hp.
      apply orb_true_r. }
  rewrite Hseen, Hat.
  split; [destruct r as [[?|?]|?|]; [destruct Hr as [-> _]..|contradiction]; discriminate|].
  split; [lia|].
  split.
  { intros p Hin Hp. subst seen. apply in_app_or in Hin.
    destruct Hin as [Hin|Hin].
    - rewrite Forall_forall in Hnone. rewrite (Hnone p Hin) in Hp. discriminate.
    - rewrite Forall_forall in Hpolls. destruct (Hpolls p Hin) as (_ & t & Ht & Hlt).
      exists t. rewrite Hfirst. now split. }
  split.
  { destruct r as [[?|?]|?|]; [destruct Hr as (-> & -> & _)|destruct Hr as (-> & ->)
                              |destruct Hr as (-> & _ & ->)|contradiction];
      split; try discriminate; reflexivity. }
  split.
  { intros Hfalse _.
    destruct r as [[?|?]|?|]; [|destruct Hr as (Hr & _)|destruct Hr as (Hr & _)|contradiction];
      try (rewrite Hr in Hfalse; discriminate).
    destruct Hr as (_ & _ & t & Ht & Hover). exists t. rewrite Hfirst, Hread.
    split; [|exact Hover]. destruct (readings polled); [discriminate|exact Ht]. }
  split.
  { intros e He.
    destruct r as [[?|?]|?|]; [destruct Hr as (Hr & _)|destruct Hr as (Hr & _)
                              |destruct Hr as (Hr & Hraised & _)|contradiction];
      rewrite Hr in He; try discriminate.
    injection He as <-. exact Hraised. }
  split; [|intros _ _; exact Hdid].
  intros Hall Hnot.
  destruct r as [[?|?]|?|]; [destruct Hr as (Hr & _); exact Hr| | |contradiction].
  - destruct Hr as (_ & Hr). rewrite Hr in Hnot. discriminate.
  - destruct Hr as (_ & Hraised & _). apply raised_not_handled in Hraised.
    exfalso. apply Hraised, Hall.
Qed.

End Outcome.

Lemma command_events_not_polls (E : env) (s : nat) (c : option Z) (queries : list command)
    (cmd : command) (cwd : option string) (timeout : Z) (evs : list event) :
  Forall (command_event cmd cwd timeout) evs ->
  existsb (command_eqb cmd) queries = false ->
  Forall (fun p => is_poll queries p = false) (ran E s c evs).
Proof.
  intros Hev Hcmd. eapply Forall_impl; [|exact (command_events_ran E s c _ _ _ _ Hev)].
  intros p [Hp _]. unfold is_poll. now rewrite Hp.
Qed.

Lemma command_events_not_answered (E : env) (s : nat) (c : option Z) (q : command)
    (test : option string -> bool) (cmd : command) (cwd : option string) (timeout : Z)
    (evs : list event) :
  Forall (command_event cmd cwd timeout) evs ->
  command_eqb cmd q = false ->
  existsb (answered q test) (ran E s c evs) = false.
Proof.
  intros Hev Hcmd. apply existsb_none.
  eapply Forall_impl; [|exact (command_events_ran E s c _ _ _ _ Hev)].
  intros p [Hp _]. unfold answered. now rewrite Hp, Hcmd.
Qed.

Lemma readings_nil : readings [] = [].
Proof. reflexivity. Qed.

(** The events of the calls made so far show no poll and no readiness. *)
Ltac no_polls :=
  trace_facts; rewrite ?readings_nil; cbn [app];
  repeat first
    [ apply Forall_nil
    | apply Forall_app; split
    | match goal with
      | Hev : Forall (command_event _ _ _) ?evs |- Forall _ (ran _ _ _ ?evs) =>
          apply (command_events_not_polls _ _ _ _ _ _ _ _ Hev); reflexivity
      end ].

Ltac not_answered :=
  trace_facts; rewrite ?readings_nil; cbn [app existsb orb];
  repeat match goal with
         | Hev : Forall (command_event _ _ _) ?evs
           |- context [existsb (answered ?q ?test) (ran ?E ?s ?c ?evs)] =>
             rewrite (command_events_not_answered E s c q test _ _ _ _ Hev eq_refl)
         end;
  cbn [orb andb]; try reflexivity.

Ltac traced :=
  repeat match goal with
         | Htr : trace _ = _ |- _ => rewrite Htr
         end.

Ltac joined := repeat (progress (cbn [app]; rewrite <- ?app_assoc)); reflexivity.

Ltac quiet_readings :=
  repeat first
    [ rewrite readings_cons | rewrite readings_app | rewrite readings_nil
    | match goal with
      | Hev : Forall (command_event _ _ _) ?evs |- context [readings ?evs] =>
          rewrite (command_events_readings _ _ _ _ Hev)
      end ];
  reflexivity.

(** The process that raised is the last one the call ran. *)
Ltac last_raised :=
  match goal with
  | Hset : settled _ ?s ?k _ (Raise ?e), Hpos : (0 < ?k)%nat
    |- raised (proc _ ?n) ?e =>
      destruct Hset as [_ [_ Hset]];
      replace n with (s + pred k)%nat by lia; exact Hset
  end.

(** Every process exits 0: the call cannot have failed. *)
Ltac not_blocked :=
  let Hpaths := fresh "Hpaths" in let Hprocs := fresh "Hprocs" in
  intros Hpaths Hprocs;
  repeat match goal with
         | H : context [path_exists _ _ _] |- _ => rewrite Hpaths in H
         end;
  try discriminate;
  match goal with
  | Hset : settled _ ?s ?k ?retry (Ret None) |- _ =>
      let Hk := fresh "Hk" in let Hall := fresh "Hall" in
      let out := fresh "out" in let err := fresh "err" in let Hp := fresh "Hp" in
      destruct Hset as [_ [Hk Hall]];
      destruct (Hprocs (s + 0)%nat) as (out & err & Hp);
      specialize (Hall 0%nat ltac:(lia)); rewrite Hp in Hall; now apply Hall
  | Hset : settled _ ?s ?k ?retry (Raise _) |- _ =>
      let out := fresh "out" in let err := fresh "err" in let Hp := fresh "Hp" in
      destruct Hset as [_ [_ Hset]];
      destruct (Hprocs (s + pred k)%nat) as (out & err & Hp);
      rewrite Hp in Hset; destruct Hset as [[Hset _]|[Hset _]]; discriminate Hset
  end.

(** Entering the loop of a deploy function called in world [w]. *)
Ltac enter_polling lemma w Hfuel :=
  match goal with
  | |- context [while_loop ?f (?cnd ?E0 ?st) ?body ?s0
                  (Build_world ?n ?sp ?stp (EvTime ?st :: ?tl))] =>
      let pre := events_since tl (trace w) in
      let Hnot := fresh "Hnot" in
      let r := fresh "r" in let w' := fresh "w" in let polled := fresh "polled" in
      let Hloop := fresh "Hloop" in let Htr := fresh "HtrL" in let Hsp := fresh "HspL" in
      let Hat := fresh "HatL" in let Hpos := fresh "HposL" in
      let Hread := fresh "HreadL" in let Hran := fresh "HranL" in let Hr := fresh "Hr" in
      pose (before := pre);
      destruct (lemma E0 st f (Build_world n sp stp (EvTime st :: tl)) (Some st)
                  (ran E0 (spawns w) None before))
        as (r & w' & polled & Hloop & Htr & Hsp & Hat & Hpos & Hread & Hran & Hr);
      [ | reflexivity | exact Hfuel | rewrite Hloop; clear Hloop ]
  end.

Section DeployFunctions.
Variable E : env.

Lemma deploy_application_outcome (e : DeployApp.environment) (fuel : nat) (w : world) :
  (31 <= fuel)%nat ->
  polls_until_deadline E [DeployApp.application_query] application_seen_ready 33 w
    (DeployApp.deploy_application E e fuel w).
Proof.
  intros Hfuel. unfold DeployApp.deploy_application. run_script.
  branch; run_script.
  - eapply ends_before_polling; cbn [fst snd trace spawns].
    + since.
    + cbn. lia.
    + constructor.
    + reflexivity.
    + left. reflexivity.
    + intros Hpaths _. rewrite Hpaths in *. discriminate.
  - call_run_command; cbn [Nat.add] in *; run_script; rewrite ?Htr.
    + (* the manifest is applied: on to the loop *)
      enter_polling application_loop w Hfuel.
      { subst before. unfold application_seen_ready. not_answered. }
      cbn [trace spawns now] in *. cbn in Hle.
      assert (Hbefore : attempts before = k /\ readings before = [] /\
                Forall (fun p => is_poll [DeployApp.application_query] p = false)
                  (ran E (spawns w) None before)).
      { subst before. split; [trace_facts; reflexivity|]. split; [quiet_readings|no_polls]. }
      destruct Hbefore as (Hba & Hbr & Hbp). rewrite Hsp, <- Hba in *.
      destruct r as [[u|b]|e'|]; [| | |contradiction]; run_script.
      * eapply (ends_after_polling (S := unit) _ _ _ _ _ _ before polled [_; _] (now w0) 30
                  (Ret (Next u))); cbn [fst snd trace spawns];
          [rewrite HtrL; subst before; joined|assumption|reflexivity|reflexivity|lia|assumption
          |lia|assumption|assumption|assumption|].
        split; [reflexivity|exact Hr].
      * eapply (ends_after_polling (S := unit) _ _ _ _ _ _ before polled [_] (now w0) 30
                  (Ret (Return b))); cbn [fst snd trace spawns];
          [rewrite HtrL; subst before; joined|assumption|reflexivity|reflexivity|lia|assumption
          |lia|assumption|assumption|assumption|].
        destruct Hr as [-> Hr]. split; [reflexivity|exact Hr].
      * eapply (ends_after_polling (S := unit) _ _ _ _ _ _ before polled [] (now w0) 30
                  (Raise e')); cbn [fst snd trace spawns];
          [rewrite HtrL; subst before; joined|assumption|reflexivity|reflexivity|lia|assumption
          |lia|assumption|assumption|assumption|].
        split; [reflexivity|exact Hr].
    + eapply ends_before_polling; cbn [fst snd trace spawns].
      * since.
      * trace_facts. cbn in Hle. lia.
      * no_polls.
      * unfold application_seen_ready. not_answered.
      * left. reflexivity.
      * not_blocked.
    + eapply ends_before_polling; cbn [fst snd trace spawns].
      * rewrite Htr. since.
      * trace_facts. cbn in Hle. lia.
      * no_polls.
      * unfold application_seen_ready. not_answered.
      * right. eexists. split; [reflexivity|]. last_raised.
      * not_blocked.
Qed.

Lemma deploy_monitoring_outcome (fuel : nat) (w : world) :
  (31 <= fuel)%nat ->
  polls_until_deadline E [DeployApp.prometheus_query; DeployApp.grafana_query]
    monitoring_seen_ready 66 w (DeployApp.deploy_monitoring E fuel w).
Proof.
  intros Hfuel. unfold DeployApp.deploy_monitoring. run_script.
  branch; run_script.
  { eapply ends_before_polling; cbn [fst snd trace spawns];
      [since|cbn; lia|constructor|reflexivity|left; reflexivity|not_blocked]. }
  call_run_command; cbn [Nat.add] in *; run_script.
  2: { eapply ends_before_polling; cbn [fst snd trace spawns];
         [traced; since|trace_facts; lia|no_polls
         |unfold monitoring_seen_ready; not_answered|left; reflexivity|not_blocked]. }
  2: { eapply ends_before_polling; cbn [fst snd trace spawns];
         [traced; since|trace_facts; lia|no_polls
         |unfold monitoring_seen_ready; not_answered
         |right; eexists; split; [reflexivity|last_raised]|not_blocked]. }
  branch; run_script.
  { eapply ends_before_polling; cbn [fst snd trace spawns];
      [traced; since|trace_facts; lia|no_polls
      |unfold monitoring_seen_ready; not_answered|left; reflexivity|not_blocked]. }
  call_run_command; cbn [Nat.add] in *; run_script.
  all: traced.
  2: { eapply ends_before_polling; cbn [fst snd trace spawns];
         [traced; since|trace_facts; lia|no_polls
         |unfold monitoring_seen_ready; not_answered|left; reflexivity|not_blocked]. }
  2: { eapply ends_before_polling; cbn [fst snd trace spawns];
         [traced; since|trace_facts; lia|no_polls
         |unfold monitoring_seen_ready; not_answered
         |right; eexists; split; [reflexivity|last_raised]|not_blocked]. }
  enter_polling monitoring_loop w Hfuel.
  { subst before. unfold flags_track, fst, snd. not_answered. auto. }
  cbn [trace spawns now] in *.
  assert (Hbefore : attempts before = (k + k0)%nat /\ readings before = [] /\
            Forall (fun p => is_poll [DeployApp.prometheus_query; DeployApp.grafana_query] p
                             = false)
              (ran E (spawns w) None before)).
  { subst before. split; [trace_facts; lia|]. split; [quiet_readings|no_polls]. }
  destruct Hbefore as (Hba & Hbr & Hbp).
  assert (Hs : spawns w1 = (spawns w + attempts before)%nat) by lia.
  rewrite Hs in HspL, HranL, Hr.
  destruct r as [[u|b]|e'|]; [| | |contradiction]; run_script.
  - eapply (ends_after_polling (S := bool * bool) _ _ _ _ _ _ before polled [_; _]
              (now w1) 60 (Ret (Next u))); cbn [fst snd trace spawns];
      [rewrite HtrL; subst before; joined|assumption|reflexivity|reflexivity|lia|assumption
      |lia|assumption|assumption|assumption|].
    split; [reflexivity|exact Hr].
  - eapply (ends_after_polling (S := bool * bool) _ _ _ _ _ _ before polled [_]
              (now w1) 60 (Ret (Return b))); cbn [fst snd trace spawns];
      [rewrite HtrL; subst before; joined|assumption|reflexivity|reflexivity|lia|assumption
      |lia|assumption|assumption|assumption|].
    destruct Hr as [-> Hr]. split; [reflexivity|exact Hr].
  - eapply (ends_after_polling (S := bool * bool) _ _ _ _ _ _ before polled []
              (now w1) 60 (Raise e')); cbn [fst snd trace spawns];
      [rewrite HtrL; subst before; joined|assumption|reflexivity|reflexivity|lia|assumption
      |lia|assumption|assumption|assumption|].
    split; [reflexivity|exact Hr].
Qed.

End DeployFunctions.


(** When the pods stay [Pending], both functions give up with [False]. *)
Example pending_pods_time_out :
  fst (DeployApp.deploy_application never_running DeployApp.dev 31 (boot 0)) = Ret false /\
  fst (DeployApp.deploy_monitoring never_running 31 (boot 0)) = Ret false.
Proof. split; vm_compute; reflexivity. Qed.


